(** * EARTHSITE monitor: a shallow embedding of [monitor.py]

    The monitoring loop of the repository ([SystemMonitor],
    [ApplicationMonitor], [ProcessMonitor] and [Monitor]) is embedded as
    functions over explicit state.  Everything the program asks of its
    environment (psutil, requests, the clock, the stats file, the terminal)
    is an input of the round, a [World]; everything it does to it is an
    [Event] of the trace.  Exceptions are values of [result]; a mutation
    made before an exception is raised stays in the state, as in Python. *)

From Stdlib Require Import String Ascii.
From Stdlib Require Import ZArith QArith Qabs List Bool Arith Lia.
From Stdlib Require Import Floats.SpecFloat.
Import ListNotations.

Set Implicit Arguments.

(** ** Python runtime pieces used by [monitor.py] *)

Module Py.

(** Exceptions that reach the monitor. *)
Inductive exn : Type :=
| OSError (msg : string)          (* a psutil query or the platform failed *)
| ZeroDivisionError
| AttributeError                  (* None.lower() *)
| TypeError                       (* iterating None *)
| ValueError                      (* time.sleep of a negative length *)
| OverflowError                   (* time.sleep of too large a length *)
| NoSuchProcess                   (* psutil.NoSuchProcess *)
| AccessDenied                    (* psutil.AccessDenied *)
| KeyboardInterrupt.

(** [KeyboardInterrupt] is the one that is not an [Exception]. *)
Definition is_Exception (e : exn) : bool :=
  match e with KeyboardInterrupt => false | _ => true end.

Inductive result (A : Type) : Type :=
| Ok (a : A)
| Raise (e : exn).
Arguments Ok {A} a.
Arguments Raise {A} e.

Definition is_ok {A} (r : result A) : bool :=
  match r with Ok _ => true | Raise _ => false end.

(** *** [collections.deque(maxlen=n)]

    [append] pushes on the right and then, when the length exceeds
    [maxlen], pops one element on the left. *)
Section Deque.
Variable A : Type.

Definition deque := list A.

Definition deque_append (maxlen : nat) (d : deque) (x : A) : deque :=
  let d' := d ++ [x] in
  if maxlen <? List.length d' then tl d' else d'.

(** Appends in a row, the way one round after another fills a buffer. *)
Definition deque_extend (maxlen : nat) (d : deque) (xs : list A) : deque :=
  fold_left (deque_append maxlen) xs d.
End Deque.

(** *** [str.lower] and [in] on strings

    Strings are ASCII text: [lower] folds the letters A to Z as [str.lower]
    does on such text, and leaves every other byte alone.  [ascii_text]
    says that a string is in that domain. *)
Definition ascii_text (s : string) : bool :=
  forallb (fun c => nat_of_ascii c <? 128) (list_ascii_of_string s).

Definition lower_ascii (c : ascii) : ascii :=
  let n := nat_of_ascii c in
  if (65 <=? n) && (n <=? 90) then ascii_of_nat (n + 32) else c.

Fixpoint lower (s : string) : string :=
  match s with
  | EmptyString => EmptyString
  | String c t => String (lower_ascii c) (lower t)
  end.

(** [contains needle hay] is Python's [needle in hay]. *)
Fixpoint contains (needle hay : string) : bool :=
  prefix needle hay ||
  match hay with
  | EmptyString => false
  | String _ t => contains needle t
  end.

(** *** Numbers

    The arithmetic of the two statistics, [len(self.errors) / 100 * 100]
    and [sum(self.response_times) / len(self.response_times)], is evaluated
    in IEEE 754 binary64, round to nearest even, bit for bit.  A clock
    reading, a latency or a psutil percentage is carried as the rational it
    is; [float_of_Q] gives back the float that holds it. *)
Definition prec : Z := 53.
Definition emax : Z := 1024.

Definition float_of_int (z : Z) : spec_float :=
  binary_normalize prec emax z 0 false.
Definition float_div : spec_float -> spec_float -> spec_float :=
  SFdiv prec emax.
Definition float_mul : spec_float -> spec_float -> spec_float :=
  SFmul prec emax.
Definition float_add : spec_float -> spec_float -> spec_float :=
  SFadd prec emax.

(** The float nearest to a rational; the rational itself when it is a
    binary64 value. *)
Definition float_of_Q (q : Q) : spec_float :=
  let r := Qred q in
  float_div (float_of_int (Qnum r)) (float_of_int (Zpos (Qden r))).

Inductive num : Type :=
| Int (z : Z)
| Float (f : spec_float).

Definition to_float (a : num) : spec_float :=
  match a with Int z => float_of_int z | Float f => f end.

Definition is_zero (f : spec_float) : bool :=
  match f with S754_zero _ => true | _ => false end.

Definition num_is_zero (a : num) : bool :=
  match a with Int z => (z =? 0)%Z | Float f => is_zero f end.

(** [a / b]: true division yields a float and raises on a zero divisor.
    [a * b]: an int when both sides are, a float otherwise. *)
Definition truediv (a b : num) : result num :=
  if num_is_zero b then Raise ZeroDivisionError
  else Ok (Float (float_div (to_float a) (to_float b))).

Definition mul (a b : num) : num :=
  match a, b with
  | Int x, Int y => Int (x * y)
  | _, _ => Float (float_mul (to_float a) (to_float b))
  end.

(** The rational a finite number denotes. *)
Definition float_value (f : spec_float) : Q :=
  match f with
  | S754_finite s m e =>
      let v := if s then Zneg m else Zpos m in
      match e with
      | Z0 => inject_Z v
      | Zpos p => inject_Z (v * 2 ^ Zpos p)
      | Zneg p => Qmake v (2 ^ p)
      end
  | _ => 0%Q
  end.

Definition is_finite (f : spec_float) : bool :=
  match f with
  | S754_finite _ _ _ | S754_zero _ => true
  | _ => false
  end.

Definition value (a : num) : Q :=
  match a with Int z => inject_Z z | Float f => float_value f end.

Definition finite (a : num) : bool :=
  match a with Int _ => true | Float f => is_finite f end.

(** [sum(xs)] on floats: the integer 0 for no value, and otherwise the
    values added from the left, starting at 0, each addition rounded.  This
    is the loop of CPython up to 3.11; from 3.12 on [sum] also carries a
    compensation term. *)
Definition sum (xs : list spec_float) : num :=
  match xs with
  | [] => Int 0
  | _ :: _ => Float (fold_left float_add xs (float_of_int 0))
  end.

End Py.
Import Py.

Local Open Scope string_scope.
Local Open Scope list_scope.

(** ** The dictionaries the monitor builds, and its effects *)

Module Data.

(** An entry of [ApplicationMonitor.errors]. *)
Record ErrorRecord := { time : string; error : string }.

(** The arguments [requests.get] is called with.  [timeout] is a keyword
    argument of [requests.get]; [None] is its default, wait without limit. *)
Record Request := { req_url : string; req_timeout : option Q }.

(** The dictionary of [check_health]. *)
Record Health := {
  status : Z;
  response_time : Q;
  is_alive : bool;
  health_error : option string
}.

(** The dictionary of [get_memory_usage] and [get_disk_usage]. *)
Record Usage := { total : Q; used : Q; percent : Q }.

(** The dictionary of [get_process_info]; the empty one is [None]. *)
Record ProcessInfo := {
  info_pid : Z;
  info_cpu_percent : Q;
  memory_rss : Q;
  memory_vms : Q;
  threads : Z;
  connections : Z;
  open_files : Z
}.

Record SystemStats := {
  sys_cpu_percent : Q;
  sys_memory_percent : Q;
  sys_disk_percent : Q;
  sys_cpu_history : list Q;
  sys_memory_history : list Q;
  sys_disk_history : list Q
}.

Record ApplicationStats := {
  app_is_alive : bool;
  app_status_code : Z;
  app_response_time : Q;
  app_avg_response_time : num;
  app_error_rate : num;
  app_recent_errors : list ErrorRecord
}.

(** The dictionary of [collect_stats]. *)
Record Stats := {
  timestamp : string;
  system : SystemStats;
  application : ApplicationStats;
  process : option ProcessInfo
}.

Inductive Alert := HighCpu | HighMemory | NotResponding | SaveFailed | Stopped.
Inductive Level := INFO | WARNING | ERROR.

(** The lines of [format_stats], before they are laid out as text. *)
Inductive Line : Type :=
| StatusLine (alive : bool)
| SystemHeader
| CpuLine (pct : Q)
| MemoryLine (pct : Q)
| DiskLine (pct : Q)
| ProcessHeader
| PidLine (pid : Z)
| ProcessCpuLine (pct : Q)
| ProcessMemoryLine (mb : Q)
| ThreadsLine (n : Z)
| PerformanceHeader
| AverageLine (ms : num)
| ErrorRateLine (rate : num).

(** What the program does to its environment. *)
Inductive Event : Type :=
| HttpGet (r : Request)               (* requests.get *)
| ProcessInfoCall (pid : Z)           (* the psutil calls of get_process_info *)
| TruncateStats                       (* open(monitor_stats.json, 'w') *)
| WriteStats (stats : Stats)          (* json.dump into the open file *)
| Log (level : Level) (what : Alert)  (* logger.info / warning / error *)
| ClearScreen
| PrintLines (lines : list Line)
| Sleep (seconds : Z).

End Data.
Import Data.

(** ** State, trace and exceptions

    A method of an object of type [S] that returns an [A] or raises, and
    adds its effects to the trace.  State and trace come back in both
    cases. *)

Definition M (S A : Type) : Type :=
  S -> list Event -> S * list Event * result A.

Definition ret {S A} (a : A) : M S A := fun s t => (s, t, Ok a).
Definition throw {S A} (e : exn) : M S A := fun s t => (s, t, Raise e).
Definition bind {S A B} (m : M S A) (k : A -> M S B) : M S B :=
  fun s t =>
    match m s t with
    | (s', t', Ok a) => k a s' t'
    | (s', t', Raise e) => (s', t', Raise e)
    end.
Definition call {S A} (r : result A) : M S A := fun s t => (s, t, r).
Definition update {S} (f : S -> S) : M S unit := fun s t => (f s, t, Ok tt).
Definition read {S A} (f : S -> A) : M S A := fun s t => (s, t, Ok (f s)).
Definition emit {S} (e : Event) : M S unit := fun s t => (s, t ++ [e], Ok tt).
Definition when {S} (b : bool) (m : M S unit) : M S unit :=
  if b then m else ret tt.

(** Run a method of a field of the object. *)
Definition within {S T A} (get : S -> T) (set : T -> S -> S) (m : M T A)
  : M S A :=
  fun s t => let '(x, t', r) := m (get s) t in (set x s, t', r).

Definition state_of {S A} (o : S * list Event * result A) : S := fst (fst o).
Definition trace_of {S A} (o : S * list Event * result A) : list Event :=
  snd (fst o).
Definition result_of {S A} (o : S * list Event * result A) : result A := snd o.

Declare Scope py_scope.
Delimit Scope py_scope with py.
Notation "x <- m ;; k" := (bind m (fun x => k))
  (at level 61, m at next level, right associativity) : py_scope.
Notation "m ;; k" := (bind m (fun _ => k))
  (at level 61, right associativity) : py_scope.
Local Open Scope py_scope.

(** ** [class SystemMonitor] *)

Module SystemMonitor.

(** What psutil answers at one query: each call returns or raises. *)
Record svmem := { vm_total : Z; vm_used : Z; vm_percent : Q }.
Record sdiskusage := { du_total : Z; du_used : Z; du_percent : Q }.
Record Host := {
  cpu_percent : result Q;             (* psutil.cpu_percent(interval=1) *)
  virtual_memory : result svmem;      (* psutil.virtual_memory() *)
  disk_usage : result sdiskusage      (* psutil.disk_usage('/') *)
}.

Definition maxlen : nat := 60.

Record t := {
  cpu_history : deque Q;
  memory_history : deque Q;
  disk_history : deque Q
}.

Definition init : t :=
  {| cpu_history := []; memory_history := []; disk_history := [] |}.

(** Byte counts in GB.  The divisor is a power of two, so the quotient the
    float division gives is the exact one for every count below 2^53, and
    it is carried as the rational it is. *)
Definition GB : Q := inject_Z (1024 * 1024 * 1024).

Definition get_cpu_usage (h : Host) : M t Q := call (cpu_percent h).

Definition get_memory_usage (h : Host) : M t Usage :=
  memory <- call (virtual_memory h) ;;
  ret {| total := inject_Z (vm_total memory) / GB;
         used := inject_Z (vm_used memory) / GB;
         percent := vm_percent memory |}.

Definition get_disk_usage (h : Host) : M t Usage :=
  disk <- call (disk_usage h) ;;
  ret {| total := inject_Z (du_total disk) / GB;
         used := inject_Z (du_used disk) / GB;
         percent := du_percent disk |}.

Definition append_cpu (x : Q) (s : t) : t :=
  {| cpu_history := deque_append maxlen (cpu_history s) x;
     memory_history := memory_history s;
     disk_history := disk_history s |}.
Definition append_memory (x : Q) (s : t) : t :=
  {| cpu_history := cpu_history s;
     memory_history := deque_append maxlen (memory_history s) x;
     disk_history := disk_history s |}.
Definition append_disk (x : Q) (s : t) : t :=
  {| cpu_history := cpu_history s;
     memory_history := memory_history s;
     disk_history := deque_append maxlen (disk_history s) x |}.

Definition update_history (h : Host) : M t unit :=
  c <- get_cpu_usage h ;;
  update (append_cpu c) ;;
  m <- get_memory_usage h ;;
  update (append_memory (percent m)) ;;
  d <- get_disk_usage h ;;
  update (append_disk (percent d)).

End SystemMonitor.

(** ** [class ApplicationMonitor] *)

Module ApplicationMonitor.

Inductive Reply : Type :=
| Response (status_code : Z)
| Failure (message : string).        (* any Exception, with its str(e) *)

(** One probe as the environment decides it: the two clock readings, what
    the GET does and the timestamp taken in the handler. *)
Record Net := {
  clock_start : Q;
  reply : Request -> Reply;
  clock_end : Q;
  now_iso : string
}.

Definition response_maxlen : nat := 60.
Definition errors_maxlen : nat := 100.

Record t := {
  url : string;
  response_times : deque Q;
  errors : deque ErrorRecord
}.

Definition init (u : string) : t :=
  {| url := u; response_times := []; errors := [] |}.

Definition append_response_time (x : Q) (s : t) : t :=
  {| url := url s;
     response_times := deque_append response_maxlen (response_times s) x;
     errors := errors s |}.
Definition append_error (e : ErrorRecord) (s : t) : t :=
  {| url := url s;
     response_times := response_times s;
     errors := deque_append errors_maxlen (errors s) e |}.

(** [requests.get(self.url)]: the call is made with the URL alone. *)
Definition get_arguments (u : string) : Request :=
  {| req_url := u; req_timeout := None |}.

Definition requests_get (n : Net) (u : string) : M t Reply :=
  emit (HttpGet (get_arguments u)) ;;
  ret (reply n (get_arguments u)).

Definition check_health (n : Net) : M t Health :=
  let start_time := clock_start n in
  u <- read url ;;
  response <- requests_get n u ;;
  match response with
  | Response code =>
      let response_time := (clock_end n - start_time)%Q in
      update (append_response_time response_time) ;;
      ret {| status := code;
             response_time := response_time;
             is_alive := (code =? 200)%Z;
             health_error := None |}
  | Failure msg =>
      update (append_error {| time := now_iso n; error := msg |}) ;;
      ret {| status := 0;
             response_time := 0;
             is_alive := false;
             health_error := Some msg |}
  end.

Definition get_average_response_time : M t num :=
  times <- read response_times ;;
  match times with
  | [] => ret (Int 0)
  | _ =>
      call (truediv (sum (map float_of_Q times))
                    (Int (Z.of_nat (List.length times))))
  end.

Definition get_error_rate : M t num :=
  errs <- read errors ;;
  match errs with
  | [] => ret (Int 0)
  | _ =>
      r <- call (truediv (Int (Z.of_nat (List.length errs))) (Int 100)) ;;
      ret (mul r (Int 100))
  end.

End ApplicationMonitor.

(** ** [class ProcessMonitor] *)

Module ProcessMonitor.

(** A process as [psutil.process_iter(['pid', 'name', 'cmdline'])] yields
    it: [proc.info] is a dictionary already filled in, in which psutil puts
    [None] for a field it could not read (access denied, zombie). *)
Record Process := {
  pid : Z;
  info_name : option string;
  info_cmdline : option (list string)
}.

(** What the psutil calls of [get_process_info] give for a process. *)
Record RawMetrics := {
  rss : Z;
  vms : Z;
  proc_cpu_percent : Q;
  num_threads : Z;
  proc_connections : nat;
  proc_open_files : nat
}.

Inductive MetricsAccess : Type :=
| Metrics (m : RawMetrics)
| MetricsGone                        (* psutil.NoSuchProcess *)
| MetricsDenied.                     (* psutil.AccessDenied *)

Record t := { process_name : string; processes : list Process }.

Definition init : t := {| process_name := "python"; processes := [] |}.

Definition entry_point : string := "server.py".

(** [if cmd]: an empty string is false. *)
Definition truthy (s : string) : bool :=
  match s with EmptyString => false | _ => true end.

(** The two nested tests of the loop body: [true] when [proc] is to be
    appended.  Calling [lower] on a name that is [None], or iterating a
    command line that is [None], raises. *)
Definition examine (process_name : string) (proc : Process) : result bool :=
  match info_name proc with
  | None => Raise AttributeError
  | Some name =>
      if contains process_name (lower name)
      then match info_cmdline proc with
           | None => Raise TypeError
           | Some cmdline =>
               Ok (existsb (fun cmd => contains entry_point (lower cmd))
                           (filter truthy cmdline))
           end
      else Ok false
  end.

(** [except (psutil.NoSuchProcess, psutil.AccessDenied): pass] *)
Definition except_psutil (r : result bool) : result bool :=
  match r with
  | Raise NoSuchProcess | Raise AccessDenied => Ok false
  | _ => r
  end.

Definition append_process (proc : Process) (s : t) : t :=
  {| process_name := process_name s; processes := processes s ++ [proc] |}.

(** The [for] loop: an exception the handler does not catch ends it. *)
Fixpoint iterate (table : list Process) : M t unit :=
  match table with
  | [] => ret tt
  | proc :: rest =>
      name <- read process_name ;;
      hit <- call (except_psutil (examine name proc)) ;;
      when hit (update (append_process proc)) ;;
      iterate rest
  end.

Definition find_processes (table : list Process) : M t (list Process) :=
  update (fun s => {| process_name := process_name s; processes := [] |}) ;;
  iterate table ;;
  read processes.

(** Byte counts in MB, exact as for [GB]. *)
Definition MB : Q := inject_Z (1024 * 1024).

Definition get_process_info (metrics : Process -> MetricsAccess)
    (process : Process) : M t (option ProcessInfo) :=
  emit (ProcessInfoCall (pid process)) ;;
  match metrics process with
  | Metrics m =>
      ret (Some {| info_pid := pid process;
                   info_cpu_percent := proc_cpu_percent m;
                   memory_rss := inject_Z (rss m) / MB;
                   memory_vms := inject_Z (vms m) / MB;
                   threads := num_threads m;
                   connections := Z.of_nat (proc_connections m);
                   open_files := Z.of_nat (proc_open_files m) |})
  | MetricsGone | MetricsDenied => ret None
  end.

(** The signature as the specification words it: the name contains the
    filter whatever the case of either, and an argument contains the entry
    point, whatever the case of the argument. *)
Definition matches_signature (name_filter : string) (proc : Process) : bool :=
  match info_name proc, info_cmdline proc with
  | Some name, Some cmdline =>
      contains (lower name_filter) (lower name) &&
      existsb (fun cmd => contains entry_point (lower cmd)) cmdline
  | _, _ => false
  end.

End ProcessMonitor.

(** ** [class Monitor] *)

Module Monitor.

Module SM := SystemMonitor.
Module AM := ApplicationMonitor.
Module PM := ProcessMonitor.

Record Args := { arg_url : string; interval : Z; quiet : bool }.

(** What writing the stats file comes to: [open] raises and the file is
    as it was, or [json.dump] raises on the file [open] has truncated, or
    the statistics are written. *)
Inductive WriteOutcome := Written | OpenFails | DumpFails.

(** What one round finds outside the program, in the order it asks. *)
Record World := {
  host_history : SM.Host;                 (* update_history *)
  net : AM.Net;                           (* check_health *)
  process_table : list PM.Process;        (* psutil.process_iter *)
  metrics : PM.Process -> PM.MetricsAccess;
  now : string;                           (* datetime.now().isoformat() *)
  host_stats : SM.Host;                   (* the readings put in the stats *)
  write : WriteOutcome;                   (* open and json.dump *)
  screen : result unit;                   (* print on standard output *)
  sleep : result unit                     (* time.sleep, length not negative *)
}.

Record t := {
  args : Args;
  system_monitor : SM.t;
  app_monitor : AM.t;
  process_monitor : PM.t;
  is_running : bool
}.

Definition init (a : Args) : t :=
  {| args := a;
     system_monitor := SM.init;
     app_monitor := AM.init (arg_url a);
     process_monitor := PM.init;
     is_running := false |}.

Definition set_system_monitor (x : SM.t) (s : t) : t :=
  {| args := args s; system_monitor := x; app_monitor := app_monitor s;
     process_monitor := process_monitor s; is_running := is_running s |}.
Definition set_app_monitor (x : AM.t) (s : t) : t :=
  {| args := args s; system_monitor := system_monitor s; app_monitor := x;
     process_monitor := process_monitor s; is_running := is_running s |}.
Definition set_process_monitor (x : PM.t) (s : t) : t :=
  {| args := args s; system_monitor := system_monitor s;
     app_monitor := app_monitor s; process_monitor := x;
     is_running := is_running s |}.
Definition set_is_running (b : bool) (s : t) : t :=
  {| args := args s; system_monitor := system_monitor s;
     app_monitor := app_monitor s; process_monitor := process_monitor s;
     is_running := b |}.

Definition on_system {A} (m : M SM.t A) : M t A :=
  within system_monitor set_system_monitor m.
Definition on_app {A} (m : M AM.t A) : M t A :=
  within app_monitor set_app_monitor m.
Definition on_process {A} (m : M PM.t A) : M t A :=
  within process_monitor set_process_monitor m.

(** The [try] of [save_stats]: a failure is logged and goes no further. *)
Definition save_stats (w : World) (stats : Stats) : M t unit :=
  match write w with
  | OpenFails => emit (Log ERROR SaveFailed)
  | DumpFails => emit TruncateStats ;; emit (Log ERROR SaveFailed)
  | Written => emit TruncateStats ;; emit (WriteStats stats)
  end.

(** [time.sleep(secs)]: a negative length is refused; the platform may
    refuse a length it cannot wait for. *)
Definition time_sleep (w : World) (secs : Z) : M t unit :=
  if (secs <? 0)%Z then throw ValueError
  else (call (sleep w) ;; emit (Sleep secs)).

Definition format_stats (stats : Stats) : list Line :=
  [StatusLine (app_is_alive (application stats));
   SystemHeader;
   CpuLine (sys_cpu_percent (system stats));
   MemoryLine (sys_memory_percent (system stats));
   DiskLine (sys_disk_percent (system stats))]
  ++ match process stats with
     | Some p =>
         [ProcessHeader;
          PidLine (info_pid p);
          ProcessCpuLine (info_cpu_percent p);
          ProcessMemoryLine (memory_rss p);
          ThreadsLine (threads p)]
     | None => []
     end
  ++ [PerformanceHeader;
      AverageLine (mul (app_avg_response_time (application stats))
                       (Int 1000));
      ErrorRateLine (app_error_rate (application stats))].

Definition collect_stats (w : World) : M t Stats :=
  on_system (SM.update_history (host_history w)) ;;
  health <- on_app (AM.check_health (net w)) ;;
  processes <- on_process (PM.find_processes (process_table w)) ;;
  process_info <-
    match processes with
    | [] => ret None
    | first :: _ => on_process (PM.get_process_info (metrics w) first)
    end ;;
  cpu <- on_system (SM.get_cpu_usage (host_stats w)) ;;
  mem <- on_system (SM.get_memory_usage (host_stats w)) ;;
  disk <- on_system (SM.get_disk_usage (host_stats w)) ;;
  cpu_h <- read (fun s => SM.cpu_history (system_monitor s)) ;;
  mem_h <- read (fun s => SM.memory_history (system_monitor s)) ;;
  disk_h <- read (fun s => SM.disk_history (system_monitor s)) ;;
  avg <- on_app AM.get_average_response_time ;;
  rate <- on_app AM.get_error_rate ;;
  errs <- read (fun s => AM.errors (app_monitor s)) ;;
  ret {| timestamp := now w;
         system := {| sys_cpu_percent := cpu;
                      sys_memory_percent := percent mem;
                      sys_disk_percent := percent disk;
                      sys_cpu_history := cpu_h;
                      sys_memory_history := mem_h;
                      sys_disk_history := disk_h |};
         application := {| app_is_alive := is_alive health;
                           app_status_code := status health;
                           app_response_time := response_time health;
                           app_avg_response_time := avg;
                           app_error_rate := rate;
                           app_recent_errors := errs |};
         process := process_info |}.

Definition Qgtb (a b : Q) : bool := negb (Qle_bool a b).

(** The body of the [while] loop of [monitor].  [print] raises when
    standard output refuses the text (an encoding without the status sign,
    a closed stream); the calls of [logger] do not raise. *)
Definition round (w : World) : M t unit :=
  stats <- collect_stats w ;;
  save_stats w stats ;;
  q <- read (fun s => quiet (args s)) ;;
  when (negb q)
       (emit ClearScreen ;;
        call (screen w) ;;
        emit (PrintLines (format_stats stats))) ;;
  when (Qgtb (sys_cpu_percent (system stats)) 90)
       (emit (Log WARNING HighCpu)) ;;
  when (Qgtb (sys_memory_percent (system stats)) 90)
       (emit (Log WARNING HighMemory)) ;;
  when (negb (app_is_alive (application stats)))
       (emit (Log ERROR NotResponding)) ;;
  secs <- read (fun s => interval (args s)) ;;
  time_sleep w secs.

Fixpoint rounds (ws : list World) : M t unit :=
  match ws with
  | [] => throw KeyboardInterrupt
  | w :: rest => round w ;; rounds rest
  end.

(** [monitor]: the rounds of [ws] run, then the operator interrupts the
    sleep.  [KeyboardInterrupt] is caught and logged, any other exception
    goes to the caller, and [finally] clears the flag in both cases. *)
Definition monitor (ws : list World) : M t unit :=
  fun s tr =>
    match rounds ws (set_is_running true s) tr with
    | (s', tr', Raise KeyboardInterrupt) =>
        (set_is_running false s', tr' ++ [Log INFO Stopped], Ok tt)
    | (s', tr', r) => (set_is_running false s', tr', r)
    end.

End Monitor.

(** * Vocabulary of the properties *)

Module Runs.

Module SM := SystemMonitor.
Module AM := ApplicationMonitor.
Module PM := ProcessMonitor.

(** A sequence of probes on one [ApplicationMonitor]. *)
Definition probe (s : AM.t) (n : AM.Net) : AM.t :=
  state_of (AM.check_health n s []).

Definition probes (ns : list AM.Net) (s : AM.t) : AM.t :=
  fold_left probe ns s.

(** The error record a probe of [u] leaves when its GET fails, and the
    latency it measures when a response comes back. *)
Definition failure_of (u : string) (n : AM.Net) : option ErrorRecord :=
  match AM.reply n (AM.get_arguments u) with
  | AM.Failure msg => Some {| time := AM.now_iso n; error := msg |}
  | AM.Response _ => None
  end.

Definition latency_of (u : string) (n : AM.Net) : option Q :=
  match AM.reply n (AM.get_arguments u) with
  | AM.Response _ => Some (AM.clock_end n - AM.clock_start n)%Q
  | AM.Failure _ => None
  end.

Fixpoint pick {A B} (f : A -> option B) (l : list A) : list B :=
  match l with
  | [] => []
  | a :: l' => match f a with Some b => b :: pick f l' | None => pick f l' end
  end.

Definition failures (u : string) (ns : list AM.Net) : list ErrorRecord :=
  pick (failure_of u) ns.

Definition latencies (u : string) (ns : list AM.Net) : list Q :=
  pick (latency_of u) ns.

(** A sequence of calls of [update_history] on one [SystemMonitor], and
    the value each call appends to each history: a metric is appended when
    its query and the queries before it answered. *)
Definition sample (s : SM.t) (h : SM.Host) : SM.t :=
  state_of (SM.update_history h s []).

Definition samples (hs : list SM.Host) (s : SM.t) : SM.t :=
  fold_left sample hs s.

Definition cpu_sample (h : SM.Host) : option Q :=
  match SM.cpu_percent h with Ok c => Some c | Raise _ => None end.

Definition memory_sample (h : SM.Host) : option Q :=
  match SM.cpu_percent h, SM.virtual_memory h with
  | Ok _, Ok m => Some (SM.vm_percent m)
  | _, _ => None
  end.

Definition disk_sample (h : SM.Host) : option Q :=
  match SM.cpu_percent h, SM.virtual_memory h, SM.disk_usage h with
  | Ok _, Ok _, Ok d => Some (SM.du_percent d)
  | _, _, _ => None
  end.



(** The methods of an [ApplicationMonitor], as a caller may interleave
    them. *)
Inductive Op : Type :=
| CheckHealth (n : AM.Net)
| GetAverageResponseTime
| GetErrorRate.

Definition step (s : AM.t) (o : Op) : AM.t :=
  match o with
  | CheckHealth n => state_of (AM.check_health n s [])
  | GetAverageResponseTime => state_of (AM.get_average_response_time s [])
  | GetErrorRate => state_of (AM.get_error_rate s [])
  end.

Definition steps (os : list Op) (s : AM.t) : AM.t := fold_left step os s.

(** All three psutil queries of a group answer. *)
Definition healthy (h : SM.Host) : bool :=
  is_ok (SM.cpu_percent h) && is_ok (SM.virtual_memory h) &&
  is_ok (SM.disk_usage h).

(** The value [get_error_rate] computes from an occupancy of [k] records. *)
Definition occupancy_rate (k : nat) : num :=
  match k with
  | O => Int 0
  | S _ =>
      mul (Float (float_div (float_of_int (Z.of_nat k)) (float_of_int 100)))
          (Int 100)
  end.

(** The occupancies at which binary64 rounding moves the rate off the
    count. *)
Definition inexact_occupancies : list nat :=
  [7; 14; 28; 29; 55; 56; 57; 58]%nat.

Definition ulp_bound : Q := 1 # (2 ^ 47).

(** One step of the error FIFO: nothing, or an append that drops at most the
    oldest record. *)
Definition fifo_step (before after : list ErrorRecord) : Prop :=
  after = before \/
  exists r, after = deque_append AM.errors_maxlen before r.

(** A probe target that refuses the connection, and one that answers. *)
Definition refusing : AM.Net :=
  {| AM.clock_start := 10;
     AM.reply := fun _ => AM.Failure "Connection refused";
     AM.clock_end := 10;
     AM.now_iso := "2024-01-01T00:00:00" |}.

Definition answering (code : Z) : AM.Net :=
  {| AM.clock_start := 10;
     AM.reply := fun _ => AM.Response code;
     AM.clock_end := 10 + (1 # 20);
     AM.now_iso := "2024-01-01T00:00:00" |}.

Definition localhost : string := "http://localhost:8000".

(** Every GET of a trace carries a timeout. *)
Definition has_timeout (e : Event) : bool :=
  match e with
  | HttpGet r => match req_timeout r with Some _ => true | None => false end
  | _ => true
  end.

(** What [update_history] has appended when it stops at the first query
    that raises, and the exception it stops with. *)
Definition first_failure (h : SM.Host) : option exn :=
  match SM.cpu_percent h, SM.virtual_memory h, SM.disk_usage h with
  | Raise e, _, _ => Some e
  | Ok _, Raise e, _ => Some e
  | Ok _, Ok _, Raise e => Some e
  | Ok _, Ok _, Ok _ => None
  end.

Definition partial_update (h : SM.Host) (s : SM.t) : SM.t :=
  match SM.cpu_percent h with
  | Raise _ => s
  | Ok c =>
      match SM.virtual_memory h with
      | Raise _ => SM.append_cpu c s
      | Ok m =>
          match SM.disk_usage h with
          | Raise _ => SM.append_memory (SM.vm_percent m) (SM.append_cpu c s)
          | Ok d =>
              SM.append_disk (SM.du_percent d)
                (SM.append_memory (SM.vm_percent m) (SM.append_cpu c s))
          end
      end
  end.

(** A host where only the CPU query fails, and one where all answer. *)
Definition cpu_query_fails : SM.Host :=
  {| SM.cpu_percent := Raise (OSError "cpu times unavailable");
     SM.virtual_memory :=
       Ok {| SM.vm_total := 8589934592; SM.vm_used := 4294967296;
             SM.vm_percent := 50 |};
     SM.disk_usage :=
       Ok {| SM.du_total := 107374182400; SM.du_used := 32212254720;
             SM.du_percent := 30 |} |}.

Definition all_queries_answer : SM.Host :=
  {| SM.cpu_percent := Ok 12%Q;
     SM.virtual_memory :=
       Ok {| SM.vm_total := 8589934592; SM.vm_used := 4294967296;
             SM.vm_percent := 50 |};
     SM.disk_usage :=
       Ok {| SM.du_total := 107374182400; SM.du_used := 32212254720;
             SM.du_percent := 30 |} |}.

Definition disk_query_fails : SM.Host :=
  {| SM.cpu_percent := Ok 12%Q;
     SM.virtual_memory :=
       Ok {| SM.vm_total := 8589934592; SM.vm_used := 4294967296;
             SM.vm_percent := 50 |};
     SM.disk_usage := Raise (OSError "No such file or directory") |}.

(** The server as the monitor looks for it, and a table without it; the
    command line of the second process could not be read. *)
Definition server_process : PM.Process :=
  {| PM.pid := 4242;
     PM.info_name := Some "python3";
     PM.info_cmdline := Some ["python3"; "server.py"] |}.

Definition other_processes : list PM.Process :=
  [ {| PM.pid := 1;
       PM.info_name := Some "systemd";
       PM.info_cmdline := Some ["/sbin/init"] |};
    {| PM.pid := 77;
       PM.info_name := Some "sshd";
       PM.info_cmdline := None |};
    {| PM.pid := 900;
       PM.info_name := Some "python3";
       PM.info_cmdline := Some ["python3"; "monitor.py"] |} ].

(** A process of which psutil could read nothing but the pid. *)
Definition unreadable_process : PM.Process :=
  {| PM.pid := 2; PM.info_name := None; PM.info_cmdline := None |}.

Definition no_metrics (_ : PM.Process) : PM.MetricsAccess := PM.MetricsGone.

Definition default_args : Monitor.Args :=
  {| Monitor.arg_url := localhost; Monitor.interval := 5;
     Monitor.quiet := false |}.

(** A round on a host that answers, with the server down and not running. *)
Definition quiet_round : Monitor.World :=
  {| Monitor.host_history := all_queries_answer;
     Monitor.net := refusing;
     Monitor.process_table := other_processes;
     Monitor.metrics := no_metrics;
     Monitor.now := "2024-01-01T00:00:05";
     Monitor.host_stats := all_queries_answer;
     Monitor.write := Monitor.Written;
     Monitor.screen := Ok tt;
     Monitor.sleep := Ok tt |}.

(** The same round, but the disk query made for the statistics raises. *)
Definition stats_query_fails : Monitor.World :=
  {| Monitor.host_history := all_queries_answer;
     Monitor.net := refusing;
     Monitor.process_table := other_processes;
     Monitor.metrics := no_metrics;
     Monitor.now := "2024-01-01T00:00:05";
     Monitor.host_stats := disk_query_fails;
     Monitor.write := Monitor.Written;
     Monitor.screen := Ok tt;
     Monitor.sleep := Ok tt |}.

(** The events of [save_stats]. *)
Definition save_events (w : Monitor.World) (stats : Stats) : list Event :=
  match Monitor.write w with
  | Monitor.OpenFails => [Log ERROR SaveFailed]
  | Monitor.DumpFails => [TruncateStats; Log ERROR SaveFailed]
  | Monitor.Written => [TruncateStats; WriteStats stats]
  end.

(** The events of a round that reached its end with the statistics [stats]
    and without looking at any process. *)
Definition round_events (w : Monitor.World) (s : Monitor.t) (stats : Stats)
  : list Event :=
  [HttpGet (AM.get_arguments (AM.url (Monitor.app_monitor s)))]
  ++ save_events w stats
  ++ (if Monitor.quiet (Monitor.args s) then []
      else [ClearScreen; PrintLines (Monitor.format_stats stats)])
  ++ (if Monitor.Qgtb (sys_cpu_percent (system stats)) 90
      then [Log WARNING HighCpu] else [])
  ++ (if Monitor.Qgtb (sys_memory_percent (system stats)) 90
      then [Log WARNING HighMemory] else [])
  ++ (if app_is_alive (application stats) then []
      else [Log ERROR NotResponding])
  ++ [Sleep (Monitor.interval (Monitor.args s))].

Definition is_process_line (l : Line) : bool :=
  match l with
  | ProcessHeader | PidLine _ | ProcessCpuLine _ | ProcessMemoryLine _
  | ThreadsLine _ => true
  | _ => false
  end.

Definition is_process_call (e : Event) : bool :=
  match e with ProcessInfoCall _ => true | _ => false end.

(** What is checked, by evaluation, of the rate at each occupancy: it is
    finite, within the bound of the count, at most 100, equal to the count
    except at the listed occupancies, and not below the rate of the
    occupancy before. *)
Definition rate_checked (k : nat) : bool :=
  let r := occupancy_rate k in
  let c := inject_Z (Z.of_nat k) in
  finite r &&
  Qle_bool (Qabs (value r - c)) ulp_bound &&
  Qle_bool (value r) 100 &&
  Bool.eqb (Qeq_bool (value r) c)
           (negb (existsb (Nat.eqb k) inexact_occupancies)) &&
  Qle_bool (value (occupancy_rate (pred k))) (value r).

End Runs.
Import Runs.

(** * The rest of [monitor.py] *)

Module Coverage.

Module SM := SystemMonitor.
Module AM := ApplicationMonitor.
Module PM := ProcessMonitor.

(** What the loop of [find_processes] comes to on a table: the processes
    appended before it ends, and the exception that ends it early, if
    any. *)
Fixpoint sweep (name_filter : string) (table : list PM.Process)
  : list PM.Process * option exn :=
  match table with
  | [] => ([], None)
  | proc :: rest =>
      match PM.examine name_filter proc with
      | Raise e => ([], Some e)
      | Ok hit =>
          let (found, stop) := sweep name_filter rest in
          ((if hit then proc :: found else found), stop)
      end
  end.

(** [proc] can be examined and passes the two tests. *)
Definition selected (name_filter : string) (proc : PM.Process) : bool :=
  match PM.examine name_filter proc with Ok hit => hit | Raise _ => false end.

(** Every process of the table can be examined: no name is [None], and no
    command line behind a matching name is. *)
Definition examinable (name_filter : string) (table : list PM.Process)
  : bool :=
  forallb (fun proc => is_ok (PM.examine name_filter proc)) table.

(** The names and arguments of the table are ASCII text. *)
Definition ascii_process (proc : PM.Process) : bool :=
  match PM.info_name proc with Some n => ascii_text n | None => true end &&
  match PM.info_cmdline proc with
  | Some c => forallb ascii_text c
  | None => true
  end.

(** The processes [find_processes] appends in a round, the exception it
    raises, if any, and the first process found when it returns, the only
    one [collect_stats] hands to [get_process_info]. *)
Definition matching (w : Monitor.World) (s : Monitor.t) : list PM.Process :=
  fst (sweep (PM.process_name (Monitor.process_monitor s))
             (Monitor.process_table w)).

Definition lookup_failure (w : Monitor.World) (s : Monitor.t) : option exn :=
  snd (sweep (PM.process_name (Monitor.process_monitor s))
             (Monitor.process_table w)).

Definition first_match (w : Monitor.World) (s : Monitor.t)
  : option PM.Process :=
  match lookup_failure w s with
  | None => hd_error (matching w s)
  | Some _ => None
  end.

(** The exception that ends [collect_stats], if any: from the queries of
    [update_history], from [find_processes], or from the queries made for
    the statistics; and the one that ends [time.sleep]. *)
Definition collect_failure (w : Monitor.World) (s : Monitor.t) : option exn :=
  match first_failure (Monitor.host_history w) with
  | Some e => Some e
  | None =>
      match lookup_failure w s with
      | Some e => Some e
      | None => first_failure (Monitor.host_stats w)
      end
  end.

Definition sleep_failure (w : Monitor.World) (s : Monitor.t) : option exn :=
  if (Monitor.interval (Monitor.args s) <? 0)%Z then Some ValueError
  else match Monitor.sleep w with Ok _ => None | Raise e => Some e end.

(** The exception [print] raises in a round that is not quiet. *)
Definition screen_failure (w : Monitor.World) (s : Monitor.t) : option exn :=
  if Monitor.quiet (Monitor.args s) then None
  else match Monitor.screen w with Ok _ => None | Raise e => Some e end.

(** The exception that ends the loop body after [collect_stats] has
    returned, and the one that ends the round. *)
Definition closing_failure (w : Monitor.World) (s : Monitor.t) : option exn :=
  match screen_failure w s with
  | Some e => Some e
  | None => sleep_failure w s
  end.

Definition round_failure (w : Monitor.World) (s : Monitor.t) : option exn :=
  match collect_failure w s with
  | Some e => Some e
  | None => closing_failure w s
  end.

(** What the loop body comes to once [collect_stats] has returned. *)
Definition closing_result (w : Monitor.World) (s : Monitor.t) : result unit :=
  match closing_failure w s with Some e => Raise e | None => Ok tt end.

Definition no_failure (o : option exn) : bool :=
  match o with None => true | Some _ => false end.

(** What the probe of a round reports on the application. *)
Definition probe_alive (w : Monitor.World) (s : Monitor.t) : bool :=
  match AM.reply (Monitor.net w)
          (AM.get_arguments (AM.url (Monitor.app_monitor s))) with
  | AM.Response code => (code =? 200)%Z
  | AM.Failure _ => false
  end.

(** The CPU and memory percentages read for the statistics. *)
Definition stats_cpu (w : Monitor.World) : option Q :=
  match SM.cpu_percent (Monitor.host_stats w) with
  | Ok c => Some c
  | Raise _ => None
  end.

Definition stats_memory (w : Monitor.World) : option Q :=
  match SM.virtual_memory (Monitor.host_stats w) with
  | Ok m => Some (SM.vm_percent m)
  | Raise _ => None
  end.

Definition above_90 (x : option Q) : bool :=
  match x with Some q => Monitor.Qgtb q 90 | None => false end.

(** Kinds of events. *)
Definition is_get (e : Event) : bool :=
  match e with HttpGet _ => true | _ => false end.
Definition is_sleep (e : Event) : bool :=
  match e with Sleep _ => true | _ => false end.
Definition is_write (e : Event) : bool :=
  match e with WriteStats _ => true | _ => false end.
Definition level_eqb (a b : Level) : bool :=
  match a, b with
  | INFO, INFO | WARNING, WARNING | ERROR, ERROR => true
  | _, _ => false
  end.
Definition alert_eqb (a b : Alert) : bool :=
  match a, b with
  | HighCpu, HighCpu | HighMemory, HighMemory
  | NotResponding, NotResponding | SaveFailed, SaveFailed
  | Stopped, Stopped => true
  | _, _ => false
  end.
Definition is_log (l : Level) (a : Alert) (e : Event) : bool :=
  match e with
  | Log l' a' => level_eqb l l' && alert_eqb a a'
  | _ => false
  end.

(** The events a round adds to the trace [tr] it started from. *)
Definition added (tr : list Event) {S A} (o : S * list Event * result A)
  : list Event :=
  skipn (List.length tr) (trace_of o).

(** What [get_process_info] returns for a process: its dictionary, or
    [None] for the empty one. *)
Definition reported (metrics : PM.Process -> PM.MetricsAccess)
    (p : PM.Process) : option ProcessInfo :=
  match result_of (PM.get_process_info metrics p PM.init []) with
  | Ok i => i
  | Raise _ => None
  end.

(** The monitor after a round whose first group of psutil queries
    answered, whatever happens later in the round. *)
Definition after_round (w : Monitor.World) (s : Monitor.t) : Monitor.t :=
  {| Monitor.args := Monitor.args s;
     Monitor.system_monitor :=
       partial_update (Monitor.host_history w) (Monitor.system_monitor s);
     Monitor.app_monitor := probe (Monitor.app_monitor s) (Monitor.net w);
     Monitor.process_monitor :=
       {| PM.process_name := PM.process_name (Monitor.process_monitor s);
          PM.processes := matching w s |};
     Monitor.is_running := Monitor.is_running s |}.

(** The events of [collect_stats], and the events of the rest of the loop
    body once the statistics [stats] are there. *)
Definition collecting_events (w : Monitor.World) (s : Monitor.t)
  : list Event :=
  HttpGet (AM.get_arguments (AM.url (Monitor.app_monitor s)))
  :: match first_match w s with
     | Some p => [ProcessInfoCall (PM.pid p)]
     | None => []
     end.

Definition closing_events (w : Monitor.World) (s : Monitor.t) (stats : Stats)
  : list Event :=
  save_events w stats
  ++ (if Monitor.quiet (Monitor.args s) then [] else [ClearScreen])
  ++ match screen_failure w s with
     | Some _ => []
     | None =>
         (if Monitor.quiet (Monitor.args s) then []
          else [PrintLines (Monitor.format_stats stats)])
         ++ (if Monitor.Qgtb (sys_cpu_percent (system stats)) 90
             then [Log WARNING HighCpu] else [])
         ++ (if Monitor.Qgtb (sys_memory_percent (system stats)) 90
             then [Log WARNING HighMemory] else [])
         ++ (if app_is_alive (application stats) then []
             else [Log ERROR NotResponding])
         ++ (if no_failure (sleep_failure w s)
             then [Sleep (Monitor.interval (Monitor.args s))] else [])
     end.

(** The monitor a round leaves, whether it completes or raises, and the
    events of a round that [collect_stats] ends with an exception. *)
Definition round_state (w : Monitor.World) (s : Monitor.t) : Monitor.t :=
  match first_failure (Monitor.host_history w) with
  | Some _ =>
      Monitor.set_system_monitor
        (partial_update (Monitor.host_history w) (Monitor.system_monitor s))
        s
  | None => after_round w s
  end.

Definition aborted_events (w : Monitor.World) (s : Monitor.t) : list Event :=
  match first_failure (Monitor.host_history w) with
  | Some _ => []
  | None => collecting_events w s
  end.

(** The statistics of a round agree with the monitor the round leaves
    and with what the round read. *)
Definition describes (w : Monitor.World) (s : Monitor.t) (stats : Stats)
  : Prop :=
  let s' := after_round w s in
  timestamp stats = Monitor.now w /\
  process stats =
    match first_match w s with
    | Some p => reported (Monitor.metrics w) p
    | None => None
    end /\
  app_is_alive (application stats) = probe_alive w s /\
  Some (sys_cpu_percent (system stats)) = stats_cpu w /\
  Some (sys_memory_percent (system stats)) = stats_memory w /\
  sys_cpu_history (system stats) = SM.cpu_history (Monitor.system_monitor s') /\
  sys_memory_history (system stats) =
    SM.memory_history (Monitor.system_monitor s') /\
  sys_disk_history (system stats) =
    SM.disk_history (Monitor.system_monitor s') /\
  app_recent_errors (application stats) = AM.errors (Monitor.app_monitor s') /\
  app_error_rate (application stats) =
    occupancy_rate (List.length (AM.errors (Monitor.app_monitor s'))) /\
  Ok (app_avg_response_time (application stats)) =
    result_of (AM.get_average_response_time (Monitor.app_monitor s') []).

(** All five buffers of a monitor are within their capacity. *)
Definition within_capacity (s : Monitor.t) : Prop :=
  (List.length (SM.cpu_history (Monitor.system_monitor s)) <= SM.maxlen /\
   List.length (SM.memory_history (Monitor.system_monitor s)) <= SM.maxlen /\
   List.length (SM.disk_history (Monitor.system_monitor s)) <= SM.maxlen /\
   List.length (AM.response_times (Monitor.app_monitor s))
     <= AM.response_maxlen /\
   List.length (AM.errors (Monitor.app_monitor s)) <= AM.errors_maxlen)%nat.

(** [main], from the parsed arguments on: [Monitor(args).monitor()] inside
    [try], and [except Exception], which logs and calls [sys.exit(1)].
    [KeyboardInterrupt] is not an [Exception]. *)
Inductive Exit : Type :=
| Returns                      (* the interpreter exits with status 0 *)
| SysExit (code : Z)
| Uncaught (e : exn).

Record Run := {
  run_trace : list Event;
  run_critical : option exn;   (* the exception logger.error reports *)
  run_exit : Exit
}.

Definition main (a : Monitor.Args) (ws : list Monitor.World) : Run :=
  match Monitor.monitor ws (Monitor.init a) [] with
  | (_, tr, Ok _) =>
      {| run_trace := tr; run_critical := None; run_exit := Returns |}
  | (_, tr, Raise e) =>
      if is_Exception e
      then {| run_trace := tr; run_critical := Some e; run_exit := SysExit 1 |}
      else {| run_trace := tr; run_critical := None; run_exit := Uncaught e |}
  end.

End Coverage.
Import Coverage.

(** * Properties *)

Local Open Scope nat_scope.

(** ** The bounded deque *)

Section DequeFacts.
Context {A : Type}.
Implicit Types (d xs : list A) (x : A) (n : nat).

Lemma deque_append_room n d x :
  List.length d < n -> deque_append n d x = d ++ [x].
Proof.
  intros Hlen. unfold deque_append.
  rewrite length_app. simpl.
  destruct (Nat.ltb_spec n (List.length d + 1)); [lia | reflexivity].
Qed.

Lemma deque_append_full n d x :
  n <= List.length d -> deque_append n d x = tl (d ++ [x]).
Proof.
  intros Hlen. unfold deque_append.
  rewrite length_app. simpl.
  destruct (Nat.ltb_spec n (List.length d + 1)); [reflexivity | lia].
Qed.

Lemma tl_skipn1 xs : tl xs = skipn 1 xs.
Proof. destruct xs; reflexivity. Qed.

Lemma deque_append_length n d x :
  List.length d <= n -> List.length (deque_append n d x) <= n.
Proof.
  intros Hlen. destruct (Nat.lt_ge_cases (List.length d) n) as [Hlt | Hge].
  - rewrite deque_append_room by assumption. rewrite length_app. simpl. lia.
  - rewrite deque_append_full by assumption.
    rewrite tl_skipn1, length_skipn, length_app. simpl. lia.
Qed.

(** Appending never shortens the buffer. *)
Lemma deque_append_keeps n d x :
  List.length d <= List.length (deque_append n d x) \/
  n < List.length d.
Proof.
  destruct (Nat.lt_ge_cases (List.length d) n) as [Hlt | Hge].
  - left. rewrite deque_append_room by assumption.
    rewrite length_app. simpl. lia.
  - destruct (Nat.eq_dec (List.length d) n) as [Heq | Hne]; [left | right; lia].
    rewrite deque_append_full by lia.
    rewrite tl_skipn1, length_skipn, length_app. simpl. lia.
Qed.

(** Extending a buffer within its bound keeps the last [n] values of
    everything that went in, in order. *)
Lemma deque_extend_skipn n xs : forall d,
  List.length d <= n ->
  deque_extend n d xs = skipn (List.length (d ++ xs) - n) (d ++ xs).
Proof.
  induction xs as [| x xs IH]; intros d Hlen.
  - simpl. rewrite app_nil_r.
    replace (List.length d - n) with 0 by lia. reflexivity.
  - change (deque_extend n d (x :: xs))
      with (deque_extend n (deque_append n d x) xs).
    rewrite IH by (apply deque_append_length; assumption).
    destruct (Nat.lt_ge_cases (List.length d) n) as [Hlt | Hge].
    + rewrite deque_append_room by assumption.
      rewrite <- app_assoc. reflexivity.
    + rewrite deque_append_full by assumption.
      assert (Hn : List.length d = n) by lia.
      rewrite tl_skipn1.
      assert (Hsk : skipn 1 (d ++ [x]) ++ xs = skipn 1 (d ++ x :: xs)).
      { destruct d as [| a d']; simpl; [| rewrite <- app_assoc];
          reflexivity. }
      rewrite Hsk, skipn_skipn. f_equal.
      rewrite length_skipn, !length_app. simpl. lia.
Qed.

Lemma deque_extend_app n xs ys d :
  deque_extend n d (xs ++ ys) = deque_extend n (deque_extend n d xs) ys.
Proof. apply fold_left_app. Qed.

Lemma deque_extend_length n xs d :
  List.length d <= n -> List.length (deque_extend n d xs) <= n.
Proof.
  revert d. induction xs as [| x xs IH]; intros d Hlen; [exact Hlen |].
  apply IH, deque_append_length, Hlen.
Qed.

End DequeFacts.

(** ** The health probe *)

Ltac run :=
  unfold bind, ret, read, emit, update, call, throw, when, within,
    state_of, trace_of, result_of; simpl.

Lemma check_health_failure_eq (n : AM.Net) (s : AM.t) (tr : list Event) msg :
  AM.reply n (AM.get_arguments (AM.url s)) = AM.Failure msg ->
  AM.check_health n s tr =
    (AM.append_error {| time := AM.now_iso n; error := msg |} s,
     tr ++ [HttpGet (AM.get_arguments (AM.url s))],
     Ok {| status := 0; response_time := 0; is_alive := false;
           health_error := Some msg |}).
Proof.
  intros H. unfold AM.check_health, AM.requests_get. run.
  rewrite H. reflexivity.
Qed.

Lemma check_health_response_eq (n : AM.Net) (s : AM.t) (tr : list Event) code :
  AM.reply n (AM.get_arguments (AM.url s)) = AM.Response code ->
  AM.check_health n s tr =
    (AM.append_response_time (AM.clock_end n - AM.clock_start n)%Q s,
     tr ++ [HttpGet (AM.get_arguments (AM.url s))],
     Ok {| status := code;
           response_time := (AM.clock_end n - AM.clock_start n)%Q;
           is_alive := (code =? 200)%Z;
           health_error := None |}).
Proof.
  intros H. unfold AM.check_health, AM.requests_get. run.
  rewrite H. reflexivity.
Qed.

Lemma probe_url s n : AM.url (probe s n) = AM.url s.
Proof.
  unfold probe.
  destruct (AM.reply n (AM.get_arguments (AM.url s))) as [code | msg] eqn:E.
  - rewrite (check_health_response_eq _ _ _ E). reflexivity.
  - rewrite (check_health_failure_eq _ _ _ E). reflexivity.
Qed.

Lemma probe_errors s n :
  AM.errors (probe s n) =
    match failure_of (AM.url s) n with
    | Some r => deque_append AM.errors_maxlen (AM.errors s) r
    | None => AM.errors s
    end.
Proof.
  unfold probe, failure_of.
  destruct (AM.reply n (AM.get_arguments (AM.url s))) as [code | msg] eqn:E.
  - rewrite (check_health_response_eq _ _ _ E). reflexivity.
  - rewrite (check_health_failure_eq _ _ _ E). reflexivity.
Qed.

Lemma probe_response_times s n :
  AM.response_times (probe s n) =
    match latency_of (AM.url s) n with
    | Some x => deque_append AM.response_maxlen (AM.response_times s) x
    | None => AM.response_times s
    end.
Proof.
  unfold probe, latency_of.
  destruct (AM.reply n (AM.get_arguments (AM.url s))) as [code | msg] eqn:E.
  - rewrite (check_health_response_eq _ _ _ E). reflexivity.
  - rewrite (check_health_failure_eq _ _ _ E). reflexivity.
Qed.

Lemma probes_url ns : forall s, AM.url (probes ns s) = AM.url s.
Proof.
  induction ns as [| n ns IH]; intros s; [reflexivity |].
  simpl. rewrite IH. apply probe_url.
Qed.

(** The error FIFO after a run of probes is the deque fed with the records of
    the failed ones; the latency history is fed with the measured times. *)
Lemma probes_errors ns : forall s,
  AM.errors (probes ns s) =
    deque_extend AM.errors_maxlen (AM.errors s) (failures (AM.url s) ns).
Proof.
  induction ns as [| n ns IH]; intros s; [reflexivity |].
  simpl. rewrite IH, probe_url, probe_errors. unfold failures. simpl.
  destruct (failure_of (AM.url s) n); reflexivity.
Qed.

Lemma probes_response_times ns : forall s,
  AM.response_times (probes ns s) =
    deque_extend AM.response_maxlen (AM.response_times s)
      (latencies (AM.url s) ns).
Proof.
  induction ns as [| n ns IH]; intros s; [reflexivity |].
  simpl. rewrite IH, probe_url, probe_response_times. unfold latencies. simpl.
  destruct (latency_of (AM.url s) n); reflexivity.
Qed.

Lemma probes_errors_bounded u ns :
  List.length (AM.errors (probes ns (AM.init u))) <= AM.errors_maxlen.
Proof.
  rewrite probes_errors. apply deque_extend_length. simpl. lia.
Qed.

(** C1.  A probe whose GET fails appends one record, made of the failure
    message and the timestamp, to the error FIFO, leaves the latency history
    as it was and returns status 0, response time 0, not alive and the
    message; after any run of probes from a new monitor the FIFO holds
    [min f 100] records, [f] the number of probes that failed. *)
Theorem failed_probe_records_error
    (n : AM.Net) (s : AM.t) (tr : list Event) (msg : string)
    (u : string) (ns : list AM.Net) :
  (AM.reply n (AM.get_arguments (AM.url s)) = AM.Failure msg ->
   let out := AM.check_health n s tr in
   AM.errors (state_of out) =
     deque_append 100 (AM.errors s)
       {| time := AM.now_iso n; error := msg |} /\
   AM.response_times (state_of out) = AM.response_times s /\
   result_of out =
     Ok {| status := 0; response_time := 0; is_alive := false;
           health_error := Some msg |}) /\
  List.length (AM.errors (probes ns (AM.init u))) =
    Nat.min (List.length (failures u ns)) 100.
Proof.
  split.
  - intros H out. unfold out.
    rewrite (check_health_failure_eq _ _ _ H). repeat split.
  - rewrite probes_errors. simpl.
    rewrite deque_extend_skipn by (simpl; lia).
    rewrite length_skipn. simpl. unfold AM.errors_maxlen. lia.
Qed.

(** Three refused probes in a row, as in the second scenario of the
    specification: the third one leaves three records. *)
Lemma failed_probe_records_error_witness :
  let s2 := probes [refusing; refusing] (AM.init localhost) in
  let out := AM.check_health refusing s2 [] in
  List.length (AM.errors (state_of out)) = 3 /\
  AM.response_times (state_of out) = [] /\
  result_of out =
    Ok {| status := 0; response_time := 0; is_alive := false;
          health_error := Some "Connection refused" |}.
Proof.
  intros s2 out.
  destruct (@failed_probe_records_error refusing s2 [] "Connection refused"
              localhost []) as [H _].
  destruct (H eq_refl) as [He [Ht Hr]].
  fold out in He, Ht, Hr.
  split; [rewrite He; reflexivity |].
  split; [rewrite Ht; reflexivity | exact Hr].
Defined.

(** C7.  A probe whose GET comes back with a response returns its status
    code, the time between the two clock readings and [is_alive] true
    exactly when the code is 200, and appends that time to the latency
    history whatever the code; the error FIFO is left as it was. *)
Theorem answered_probe_measures_latency
    (n : AM.Net) (s : AM.t) (tr : list Event) (code : Z) :
  AM.reply n (AM.get_arguments (AM.url s)) = AM.Response code ->
  let out := AM.check_health n s tr in
  let elapsed := (AM.clock_end n - AM.clock_start n)%Q in
  (exists h, result_of out = Ok h /\
     status h = code /\
     response_time h = elapsed /\
     (is_alive h = true <-> code = 200%Z) /\
     health_error h = None) /\
  AM.response_times (state_of out) =
    deque_append 60 (AM.response_times s) elapsed /\
  AM.errors (state_of out) = AM.errors s.
Proof.
  intros H out elapsed. unfold out, elapsed.
  rewrite (check_health_response_eq _ _ _ H).
  split; [| split; reflexivity].
  eexists. split; [reflexivity |]. simpl.
  repeat split; try reflexivity.
  - apply Z.eqb_eq.
  - apply Z.eqb_eq.
Qed.

(** A probe answered with 200 after 50 ms, and one answered with 503. *)
Lemma answered_probe_measures_latency_witness :
  let out := AM.check_health (answering 200) (AM.init localhost) [] in
  let out' := AM.check_health (answering 503) (AM.init localhost) [] in
  AM.response_times (state_of out) = [((10 + (1 # 20)) - 10)%Q] /\
  AM.response_times (state_of out') = [((10 + (1 # 20)) - 10)%Q] /\
  AM.errors (state_of out) = [].
Proof.
  intros out out'.
  destruct (@answered_probe_measures_latency (answering 200)
              (AM.init localhost) [] 200%Z eq_refl) as [_ [H1 H2]].
  destruct (@answered_probe_measures_latency (answering 503)
              (AM.init localhost) [] 503%Z eq_refl) as [_ [H3 _]].
  fold out in H1, H2. fold out' in H3.
  rewrite H1, H2, H3. repeat split.
Defined.

(** ** Derived statistics *)

Arguments float_div : simpl never.
Arguments float_mul : simpl never.
Arguments float_add : simpl never.
Arguments float_of_int : simpl never.
Arguments float_of_Q : simpl never.
Arguments truediv : simpl never.
Arguments mul : simpl never.

Lemma truediv_by_count (a : num) (n : nat) :
  truediv a (Int (Z.of_nat (S n))) =
    Ok (Float (float_div (to_float a) (float_of_int (Z.of_nat (S n))))).
Proof.
  unfold truediv, num_is_zero.
  destruct (Z.eqb_spec (Z.of_nat (S n)) 0) as [E | _]; [lia | reflexivity].
Qed.

Lemma get_average_response_time_returns (s : AM.t) (tr : list Event) :
  exists r : num, AM.get_average_response_time s tr = (s, tr, Ok r).
Proof.
  unfold AM.get_average_response_time. run.
  destruct (AM.response_times s) as [| x xs]; [eexists; reflexivity |].
  cbn [List.length]. rewrite truediv_by_count. eexists. reflexivity.
Qed.


(** ** The error rate *)

Lemma get_error_rate_eq (s : AM.t) (tr : list Event) :
  AM.get_error_rate s tr =
    (s, tr, Ok (occupancy_rate (List.length (AM.errors s)))).
Proof.
  unfold AM.get_error_rate. run.
  destruct (AM.errors s) as [| e es]; reflexivity.
Qed.

Lemma rate_table : forallb rate_checked (seq 0 101) = true.
Proof. vm_compute. reflexivity. Qed.

Lemma rate_checked_upto k : k <= 100 -> rate_checked k = true.
Proof.
  intros Hk. pose proof rate_table as T.
  rewrite forallb_forall in T. apply T, in_seq. lia.
Qed.

Lemma occupancy_rate_monotone j k :
  j <= k -> k <= 100 ->
  (value (occupancy_rate j) <= value (occupancy_rate k))%Q.
Proof.
  induction 1 as [| k Hjk IH]; intros Hk.
  - apply Qle_refl.
  - apply Qle_trans with (value (occupancy_rate k)); [apply IH; lia |].
    pose proof (rate_checked_upto Hk) as C. unfold rate_checked in C.
    rewrite !andb_true_iff in C. destruct C as [_ C].
    apply Qle_bool_iff in C. exact C.
Qed.

(** C2, as the code has it.  On an error FIFO within its capacity,
    [get_error_rate] never raises and returns [(k / 100) * 100] as binary64
    evaluates it, [k] the occupancy: the integer 0 on an empty FIFO, a value
    within [2^-47] of [k] otherwise, equal to [k] exactly when [k] is none of
    7, 14, 28, 29, 55, 56, 57, 58, and never above 100. *)
Theorem error_rate_near_occupancy (s : AM.t) (tr : list Event) :
  List.length (AM.errors s) <= AM.errors_maxlen ->
  let k := List.length (AM.errors s) in
  exists r : num,
    AM.get_error_rate s tr = (s, tr, Ok r) /\
    r = occupancy_rate k /\
    match AM.errors s with [] => r = Int 0 | _ :: _ => finite r = true end /\
    (Qabs (value r - inject_Z (Z.of_nat k)) <= ulp_bound)%Q /\
    ((value r == inject_Z (Z.of_nat k))%Q <-> ~ In k inexact_occupancies) /\
    (value r <= 100)%Q.
Proof.
  intros Hlen k. exists (occupancy_rate k).
  pose proof (rate_checked_upto Hlen) as C. fold k in C.
  unfold rate_checked in C. rewrite !andb_true_iff in C.
  destruct C as [[[[Cfin Cabs] Cmax] Ceq] _].
  split; [apply get_error_rate_eq |].
  split; [reflexivity |].
  split.
  { unfold k. destruct (AM.errors s); [reflexivity | exact Cfin]. }
  split; [apply Qle_bool_iff, Cabs |].
  split; [| apply Qle_bool_iff, Cmax].
  apply Bool.eqb_prop in Ceq.
  rewrite <- Qeq_bool_iff, Ceq, negb_true_iff.
  split.
  - intros Hex Hin.
    assert (existsb (Nat.eqb k) inexact_occupancies = true) as Ht.
    { apply existsb_exists. exists k. split; [exact Hin | apply Nat.eqb_refl]. }
    congruence.
  - intros Hnin. destruct (existsb (Nat.eqb k) inexact_occupancies) eqn:Hex;
      [| reflexivity].
    apply existsb_exists in Hex. destruct Hex as [x [Hin Hx]].
    apply Nat.eqb_eq in Hx. subst x. contradiction.
Qed.

(** Seven refused probes on a new monitor: the FIFO is within its
    capacity and the rate is off the count by one rounding. *)
Lemma error_rate_near_occupancy_witness :
  let s := probes (repeat refusing 7) (AM.init localhost) in
  exists r : num,
    AM.get_error_rate s [] = (s, [], Ok r) /\
    (Qabs (value r - 7) <= ulp_bound)%Q /\
    (value r <= 100)%Q.
Proof.
  intros s.
  destruct (@error_rate_near_occupancy s []) as [r [H1 [_ [_ [H2 [_ H3]]]]]].
  - vm_compute. lia.
  - exists r. split; [exact H1 |]. split; [exact H2 | exact H3].
Defined.

(** C2 fails as stated: with seven records in the FIFO the value returned is
    not the occupancy count. *)
Lemma error_rate_differs_from_occupancy :
  ~ (forall s : AM.t,
       List.length (AM.errors s) <= AM.errors_maxlen ->
       exists r : num,
         result_of (AM.get_error_rate s []) = Ok r /\
         (value r == inject_Z (Z.of_nat (List.length (AM.errors s))))%Q).
Proof.
  intros H.
  destruct (H (probes (repeat refusing 7) (AM.init localhost))) as [r [Hr Hv]].
  - vm_compute. lia.
  - rewrite get_error_rate_eq in Hr. unfold result_of in Hr. simpl snd in Hr.
    injection Hr as Hr. subst r. vm_compute in Hv. discriminate Hv.
Qed.

Lemma step_errors (s : AM.t) (o : Op) :
  fifo_step (AM.errors s) (AM.errors (step s o)).
Proof.
  destruct o as [n | |]; simpl.
  - fold (probe s n). rewrite probe_errors.
    destruct (failure_of (AM.url s) n) as [r |]; [right; exists r |left];
      reflexivity.
  - left. destruct (get_average_response_time_returns s []) as [q Hq].
    rewrite Hq. reflexivity.
  - left. rewrite get_error_rate_eq. reflexivity.
Qed.

Lemma fifo_step_length (before after : list ErrorRecord) :
  fifo_step before after ->
  List.length before <= AM.errors_maxlen ->
  List.length before <= List.length after <= AM.errors_maxlen.
Proof.
  intros [-> | [r ->]] Hlen; [lia |].
  split; [| apply deque_append_length, Hlen].
  destruct (deque_append_keeps AM.errors_maxlen before r); lia.
Qed.

Lemma steps_length os : forall s,
  List.length (AM.errors s) <= AM.errors_maxlen ->
  List.length (AM.errors s) <= List.length (AM.errors (steps os s))
    <= AM.errors_maxlen.
Proof.
  induction os as [| o os IH]; intros s Hlen; [simpl; lia |].
  simpl. pose proof (fifo_step_length (step_errors s o) Hlen) as [H1 H2].
  specialize (IH (step s o) H2). lia.
Qed.

(** ** Locating the processes *)

Lemma except_psutil_examine (name_filter : string) (proc : PM.Process) :
  PM.except_psutil (PM.examine name_filter proc) =
  PM.examine name_filter proc.
Proof.
  unfold PM.examine.
  destruct (PM.info_name proc) as [name |]; [| reflexivity].
  destruct (contains name_filter (lower name)); [| reflexivity].
  destruct (PM.info_cmdline proc); reflexivity.
Qed.

Lemma iterate_eq table : forall (s : PM.t) (tr : list Event),
  PM.iterate table s tr =
    ({| PM.process_name := PM.process_name s;
        PM.processes :=
          PM.processes s ++ fst (sweep (PM.process_name s) table) |},
     tr,
     match snd (sweep (PM.process_name s) table) with
     | Some e => Raise e
     | None => Ok tt
     end).
Proof.
  induction table as [| proc rest IH]; intros s tr.
  - simpl. run. rewrite app_nil_r. destruct s; reflexivity.
  - cbn [PM.iterate sweep]. run. rewrite except_psutil_examine.
    destruct (PM.examine (PM.process_name s) proc) as [hit | e].
    + destruct hit; simpl.
      * rewrite IH. simpl.
        destruct (sweep (PM.process_name s) rest) as [found stop]. simpl.
        rewrite <- app_assoc. reflexivity.
      * rewrite IH.
        destruct (sweep (PM.process_name s) rest) as [found stop].
        reflexivity.
    + simpl. rewrite app_nil_r. destruct s; reflexivity.
Qed.

Lemma find_processes_eq table (s : PM.t) (tr : list Event) :
  PM.find_processes table s tr =
    ({| PM.process_name := PM.process_name s;
        PM.processes := fst (sweep (PM.process_name s) table) |},
     tr,
     match snd (sweep (PM.process_name s) table) with
     | Some e => Raise e
     | None => Ok (fst (sweep (PM.process_name s) table))
     end).
Proof.
  unfold PM.find_processes. unfold bind at 1. unfold update at 1.
  unfold bind. rewrite iterate_eq. simpl.
  destruct (snd (sweep (PM.process_name s) table)); reflexivity.
Qed.

Lemma sweep_examinable (name_filter : string) table :
  examinable name_filter table = true ->
  sweep name_filter table = (filter (selected name_filter) table, None).
Proof.
  unfold examinable, selected.
  induction table as [| proc rest IH]; intros H; [reflexivity |].
  simpl in H. apply andb_true_iff in H. destruct H as [Hp Hrest].
  simpl. destruct (PM.examine name_filter proc) as [hit | e];
    [| discriminate Hp].
  rewrite (IH Hrest). destruct hit; reflexivity.
Qed.

Lemma sweep_stop_iff (name_filter : string) table :
  snd (sweep name_filter table) = None <->
  examinable name_filter table = true.
Proof.
  split.
  - unfold examinable.
    induction table as [| proc rest IH]; intros H; [reflexivity |].
    simpl in *. destruct (PM.examine name_filter proc) as [hit | e];
      [| discriminate H].
    destruct (sweep name_filter rest) as [found stop]. simpl in *.
    apply IH, H.
  - intros H. rewrite (sweep_examinable _ _ H). reflexivity.
Qed.

Lemma existsb_truthy (f : string -> bool) (l : list string) :
  f EmptyString = false ->
  existsb f (filter PM.truthy l) = existsb f l.
Proof.
  intros Hf. induction l as [| c l IH]; [reflexivity |].
  destruct c as [| a c']; simpl.
  - rewrite Hf. exact IH.
  - rewrite IH. reflexivity.
Qed.

(** C6, where the code departs from it.  With the filter [Python] the
    server, whose name [python3] contains the filter when case is ignored
    and whose arguments contain [server.py], is not returned: only the name
    is lower-cased, the filter is not.  And a process whose name psutil
    could not read is not skipped: [find_processes] raises
    [AttributeError], which the handler of the loop does not catch, and the
    server that comes after it in the table is never reached. *)
Theorem find_processes_misses_signature :
  PM.matches_signature "Python" server_process = true /\
  PM.find_processes [server_process]
    {| PM.process_name := "Python"; PM.processes := [] |} [] =
    ({| PM.process_name := "Python"; PM.processes := [] |}, [], Ok []) /\
  PM.find_processes [unreadable_process; server_process] PM.init [] =
    (PM.init, [], Raise AttributeError) /\
  PM.find_processes [server_process; unreadable_process] PM.init [] =
    ({| PM.process_name := "python"; PM.processes := [server_process] |},
     [], Raise AttributeError).
Proof. repeat split. Qed.
(** ** Host queries that raise *)

Lemma bind_ok {S A B} (m : M S A) (k : A -> M S B) s tr s' tr' a :
  m s tr = (s', tr', Ok a) -> bind m k s tr = k a s' tr'.
Proof. intros H. unfold bind. rewrite H. reflexivity. Qed.

Lemma bind_raise {S A B} (m : M S A) (k : A -> M S B) s tr s' tr' e :
  m s tr = (s', tr', Raise e) -> bind m k s tr = (s', tr', Raise e).
Proof. intros H. unfold bind. rewrite H. reflexivity. Qed.

Lemma within_eq {S T A} (get : S -> T) (set : T -> S -> S) (m : M T A)
    s tr x tr' r :
  m (get s) tr = (x, tr', r) -> within get set m s tr = (set x s, tr', r).
Proof. intros H. unfold within. rewrite H. reflexivity. Qed.

Lemma update_history_eq (h : SM.Host) (s : SM.t) (tr : list Event) :
  SM.update_history h s tr =
    (partial_update h s, tr,
     match first_failure h with Some e => Raise e | None => Ok tt end).
Proof.
  unfold SM.update_history, SM.get_cpu_usage, SM.get_memory_usage,
    SM.get_disk_usage, partial_update, first_failure. run.
  destruct (SM.cpu_percent h) as [c | e]; [| reflexivity].
  destruct (SM.virtual_memory h) as [m | e]; [| reflexivity].
  destruct (SM.disk_usage h) as [d | e]; reflexivity.
Qed.

Lemma healthy_first_failure (h : SM.Host) :
  healthy h = true <-> first_failure h = None.
Proof.
  unfold healthy, first_failure.
  destruct (SM.cpu_percent h), (SM.virtual_memory h), (SM.disk_usage h);
    simpl; split; intros H; try reflexivity; discriminate H.
Qed.

Lemma unhealthy_first_failure (h : SM.Host) :
  healthy h = false -> exists e, first_failure h = Some e.
Proof.
  intros H.
  destruct (first_failure h) as [e |] eqn:E; [exists e; reflexivity |].
  apply healthy_first_failure in E. congruence.
Qed.

Lemma collect_stats_aborts (w : Monitor.World) (S : Monitor.t) tr e :
  first_failure (Monitor.host_history w) = Some e ->
  Monitor.collect_stats w S tr =
    (Monitor.set_system_monitor
       (partial_update (Monitor.host_history w) (Monitor.system_monitor S)) S,
     tr, Raise e).
Proof.
  intros He. unfold Monitor.collect_stats. apply bind_raise.
  unfold Monitor.on_system. apply within_eq.
  rewrite update_history_eq, He. reflexivity.
Qed.

Lemma round_aborts (w : Monitor.World) (S : Monitor.t) tr e :
  first_failure (Monitor.host_history w) = Some e ->
  Monitor.round w S tr =
    (Monitor.set_system_monitor
       (partial_update (Monitor.host_history w) (Monitor.system_monitor S)) S,
     tr, Raise e).
Proof.
  intros He. unfold Monitor.round. apply bind_raise.
  apply collect_stats_aborts, He.
Qed.

(** The loop does not survive it: [monitor] hands the exception to its
    caller, with the flag cleared. *)
Lemma monitor_stops_on_failed_query w ws (S : Monitor.t) tr msg :
  first_failure (Monitor.host_history w) = Some (OSError msg) ->
  result_of (Monitor.monitor (w :: ws) S tr) = Raise (OSError msg) /\
  Monitor.is_running (state_of (Monitor.monitor (w :: ws) S tr)) = false /\
  trace_of (Monitor.monitor (w :: ws) S tr) = tr.
Proof.
  intros He. unfold Monitor.monitor. simpl Monitor.rounds.
  erewrite bind_raise by (apply round_aborts, He).
  repeat split.
Qed.

(** The operator's interrupt ends the loop without an exception. *)
Lemma monitor_interrupted (S : Monitor.t) tr :
  Monitor.monitor [] S tr =
    (Monitor.set_is_running false (Monitor.set_is_running true S),
     tr ++ [Log INFO Stopped], Ok tt).
Proof. reflexivity. Qed.

(** C4, as the code has it.  When one of the three psutil queries of
    [update_history] raises, [update_history] raises that exception: the
    metrics queried before it are appended, the one that failed and those
    after it are not, and [collect_stats] and the round raise it in turn
    before any probe, any write and any output. *)
Theorem failed_host_query_aborts_round
    (w : Monitor.World) (S : Monitor.t) (tr : list Event) :
  healthy (Monitor.host_history w) = false ->
  let h := Monitor.host_history w in
  let sm := partial_update h (Monitor.system_monitor S) in
  exists e : exn,
    first_failure h = Some e /\
    SM.update_history h (Monitor.system_monitor S) tr = (sm, tr, Raise e) /\
    Monitor.collect_stats w S tr =
      (Monitor.set_system_monitor sm S, tr, Raise e) /\
    Monitor.round w S tr = (Monitor.set_system_monitor sm S, tr, Raise e) /\
    SM.disk_history sm = SM.disk_history (Monitor.system_monitor S) /\
    (is_ok (SM.cpu_percent h) = false ->
     sm = Monitor.system_monitor S).
Proof.
  intros Hbad h sm.
  destruct (unhealthy_first_failure _ Hbad) as [e He]. fold h in He.
  exists e. split; [exact He |].
  split; [rewrite update_history_eq, He; reflexivity |].
  split; [apply collect_stats_aborts, He |].
  split; [apply round_aborts, He |].
  split.
  - unfold sm, partial_update. unfold first_failure in He.
    destruct (SM.cpu_percent h) as [c | e1]; [| reflexivity].
    destruct (SM.virtual_memory h) as [m | e2]; [| reflexivity].
    destruct (SM.disk_usage h) as [d | e3]; [discriminate He | reflexivity].
  - intros Hcpu. unfold sm, partial_update.
    destruct (SM.cpu_percent h); [discriminate Hcpu | reflexivity].
Qed.

(** A round whose CPU query fails on a new monitor: nothing is appended to
    any history and the round raises. *)
Lemma failed_host_query_aborts_round_witness :
  exists e : exn,
    Monitor.round
      {| Monitor.host_history := cpu_query_fails;
         Monitor.net := refusing;
         Monitor.process_table := other_processes;
         Monitor.metrics := no_metrics;
         Monitor.now := "2024-01-01T00:00:05";
         Monitor.host_stats := all_queries_answer;
         Monitor.write := Monitor.Written;
         Monitor.screen := Ok tt;
         Monitor.sleep := Ok tt |}
      (Monitor.init default_args) []
    = (Monitor.init default_args, [], Raise e).
Proof.
  destruct (@failed_host_query_aborts_round
              {| Monitor.host_history := cpu_query_fails;
                 Monitor.net := refusing;
                 Monitor.process_table := other_processes;
                 Monitor.metrics := no_metrics;
                 Monitor.now := "2024-01-01T00:00:05";
                 Monitor.host_stats := all_queries_answer;
                 Monitor.write := Monitor.Written;
                 Monitor.screen := Ok tt;
                 Monitor.sleep := Ok tt |}
              (Monitor.init default_args) [] eq_refl)
    as [e [_ [_ [_ [H _]]]]].
  exists e. exact H.
Defined.

(** C4 fails as stated: when the CPU query raises while memory and disk would
    answer, [update_history] raises and appends neither of the two. *)
Lemma failed_cpu_query_blocks_the_others :
  ~ (forall (h : SM.Host) (s : SM.t) e m d,
       SM.cpu_percent h = Raise e ->
       SM.virtual_memory h = Ok m ->
       SM.disk_usage h = Ok d ->
       let out := SM.update_history h s [] in
       result_of out = Ok tt /\
       SM.memory_history (state_of out) =
         deque_append SM.maxlen (SM.memory_history s) (SM.vm_percent m) /\
       SM.disk_history (state_of out) =
         deque_append SM.maxlen (SM.disk_history s) (SM.du_percent d)).
Proof.
  intros H.
  destruct (H cpu_query_fails SM.init _ _ _ eq_refl eq_refl eq_refl)
    as [Hres _].
  vm_compute in Hres. discriminate Hres.
Qed.

(** ** One round, step by step *)

Lemma healthy_answers (h : SM.Host) :
  healthy h = true ->
  exists c m d,
    SM.cpu_percent h = Ok c /\ SM.virtual_memory h = Ok m /\
    SM.disk_usage h = Ok d.
Proof.
  unfold healthy.
  destruct (SM.cpu_percent h) as [c |], (SM.virtual_memory h) as [m |],
    (SM.disk_usage h) as [d |]; simpl; intros H; try discriminate H.
  exists c, m, d. repeat split.
Qed.

Lemma get_process_info_eq metrics (p : PM.Process) (s : PM.t) tr :
  PM.get_process_info metrics p s tr =
    (s, tr ++ [ProcessInfoCall (PM.pid p)], Ok (reported metrics p)).
Proof.
  unfold reported, PM.get_process_info. run.
  destruct (metrics p); reflexivity.
Qed.

Lemma check_health_eq (n : AM.Net) (s : AM.t) tr :
  exists h : Health,
    AM.check_health n s tr =
      (probe s n, tr ++ [HttpGet (AM.get_arguments (AM.url s))], Ok h) /\
    is_alive h =
      match AM.reply n (AM.get_arguments (AM.url s)) with
      | AM.Response code => (code =? 200)%Z
      | AM.Failure _ => false
      end.
Proof.
  unfold probe.
  destruct (AM.reply n (AM.get_arguments (AM.url s))) as [code | msg] eqn:E.
  - rewrite !(check_health_response_eq _ _ _ E). eexists. repeat split.
  - rewrite !(check_health_failure_eq _ _ _ E). eexists. repeat split.
Qed.

Lemma get_average_depends_on_times (s s' : AM.t) (tr tr' : list Event) :
  AM.response_times s = AM.response_times s' ->
  result_of (AM.get_average_response_time s tr) =
  result_of (AM.get_average_response_time s' tr').
Proof.
  intros H. unfold AM.get_average_response_time. run. rewrite H.
  destruct (AM.response_times s'); reflexivity.
Qed.

(** [collect_stats] up to [find_processes], when [update_history]
    returned. *)
Lemma collect_stats_to_lookup (w : Monitor.World) (S : Monitor.t) tr
    {B} (k : list PM.Process -> Health -> M Monitor.t B) :
  first_failure (Monitor.host_history w) = None ->
  exists h : Health,
    (on_sys <- Monitor.on_system (SM.update_history (Monitor.host_history w)) ;;
     health <- Monitor.on_app (AM.check_health (Monitor.net w)) ;;
     processes <-
       Monitor.on_process (PM.find_processes (Monitor.process_table w)) ;;
     k processes health) S tr
    = match lookup_failure w S with
      | Some e =>
          (after_round w S,
           tr ++ [HttpGet (AM.get_arguments
                             (AM.url (Monitor.app_monitor S)))],
           Raise e)
      | None =>
          k (matching w S) h (after_round w S)
            (tr ++ [HttpGet (AM.get_arguments
                               (AM.url (Monitor.app_monitor S)))])
      end /\
    is_alive h = probe_alive w S.
Proof.
  intros H1.
  destruct (check_health_eq (Monitor.net w) (Monitor.app_monitor S) tr)
    as [h [Hh Halive]].
  exists h. split; [| exact Halive].
  erewrite bind_ok;
    [| unfold Monitor.on_system; apply within_eq;
       rewrite update_history_eq, H1; reflexivity].
  erewrite bind_ok;
    [| unfold Monitor.on_app; apply within_eq; simpl; exact Hh].
  unfold lookup_failure, matching, after_round.
  unfold bind, Monitor.on_process, within. simpl.
  rewrite find_processes_eq. simpl.
  destruct (snd (sweep (PM.process_name (Monitor.process_monitor S))
                       (Monitor.process_table w))); reflexivity.
Qed.

Lemma collect_stats_lookup_fails (w : Monitor.World) (S : Monitor.t) tr e :
  first_failure (Monitor.host_history w) = None ->
  lookup_failure w S = Some e ->
  Monitor.collect_stats w S tr =
    (after_round w S,
     tr ++ [HttpGet (AM.get_arguments (AM.url (Monitor.app_monitor S)))],
     Raise e).
Proof.
  intros H1 H3. unfold Monitor.collect_stats.
  edestruct (@collect_stats_to_lookup w S tr) as [h [Heq _]]; [exact H1 |].
  rewrite Heq, H3. reflexivity.
Qed.

(** [collect_stats] up to the statistics dictionary, when
    [find_processes] returned too. *)
Lemma collect_stats_to_stats (w : Monitor.World) (S : Monitor.t) tr
    {B} (k : Health -> option ProcessInfo -> M Monitor.t B) :
  first_failure (Monitor.host_history w) = None ->
  lookup_failure w S = None ->
  exists h : Health,
    (on_sys <- Monitor.on_system (SM.update_history (Monitor.host_history w)) ;;
     health <- Monitor.on_app (AM.check_health (Monitor.net w)) ;;
     processes <-
       Monitor.on_process (PM.find_processes (Monitor.process_table w)) ;;
     process_info <-
       match processes with
       | [] => ret None
       | first :: _ =>
           Monitor.on_process (PM.get_process_info (Monitor.metrics w) first)
       end ;;
     k health process_info) S tr
    = k h (match first_match w S with
           | Some p => reported (Monitor.metrics w) p
           | None => None
           end)
        (after_round w S) (tr ++ collecting_events w S) /\
    is_alive h = probe_alive w S.
Proof.
  intros H1 H3.
  edestruct (@collect_stats_to_lookup w S tr) as [h [Heq Halive]];
    [exact H1 |].
  exists h. split; [| exact Halive].
  rewrite Heq, H3. clear Heq.
  unfold collecting_events, first_match. rewrite H3.
  destruct (matching w S) as [| first rest] eqn:Hm.
  - unfold bind at 1. unfold ret at 1. simpl. reflexivity.
  - erewrite bind_ok;
      [| unfold Monitor.on_process; apply within_eq; simpl;
         apply get_process_info_eq].
    simpl. rewrite <- app_assoc.
    replace (Monitor.set_process_monitor _ (after_round w S))
      with (after_round w S); [reflexivity |].
    unfold after_round, Monitor.set_process_monitor. simpl.
    rewrite Hm. reflexivity.
Qed.

Lemma collect_stats_returns (w : Monitor.World) (S : Monitor.t) tr :
  collect_failure w S = None ->
  exists stats : Stats,
    Monitor.collect_stats w S tr =
      (after_round w S, tr ++ collecting_events w S, Ok stats) /\
    describes w S stats.
Proof.
  unfold collect_failure. intros H.
  destruct (first_failure (Monitor.host_history w)) eqn:H1;
    [discriminate H |].
  destruct (lookup_failure w S) eqn:H3; [discriminate H |].
  apply healthy_first_failure in H.
  destruct (healthy_answers _ H) as [c [m [d [Hc [Hm Hd]]]]].
  unfold Monitor.collect_stats.
  edestruct (@collect_stats_to_stats w S tr) as [h [Heq Halive]];
    [exact H1 | exact H3 |].
  rewrite Heq. clear Heq.
  unfold Monitor.on_system, Monitor.on_app, SM.get_cpu_usage,
    SM.get_memory_usage, SM.get_disk_usage. run.
  rewrite Hc, Hm, Hd. simpl.
  destruct (get_average_response_time_returns
              (probe (Monitor.app_monitor S) (Monitor.net w))
              (tr ++ collecting_events w S)) as [q Hq].
  rewrite Hq. simpl. rewrite get_error_rate_eq. simpl.
  eexists. split; [reflexivity |].
  unfold describes, stats_cpu, stats_memory. simpl.
  rewrite Hc, Hm.
  repeat split; try reflexivity; try exact Halive.
  erewrite get_average_depends_on_times by reflexivity.
  rewrite Hq. reflexivity.
Qed.

Lemma collect_stats_stats_query_fails (w : Monitor.World) (S : Monitor.t)
    tr e :
  first_failure (Monitor.host_history w) = None ->
  lookup_failure w S = None ->
  first_failure (Monitor.host_stats w) = Some e ->
  Monitor.collect_stats w S tr =
    (after_round w S, tr ++ collecting_events w S, Raise e).
Proof.
  intros H1 H3 H2. unfold Monitor.collect_stats.
  edestruct (@collect_stats_to_stats w S tr) as [h [Heq _]];
    [exact H1 | exact H3 |].
  rewrite Heq. clear Heq.
  unfold Monitor.on_system, SM.get_cpu_usage,
    SM.get_memory_usage, SM.get_disk_usage. run.
  unfold first_failure in H2.
  destruct (SM.cpu_percent (Monitor.host_stats w)) as [c | e1];
    [| injection H2 as ->; reflexivity].
  destruct (SM.virtual_memory (Monitor.host_stats w)) as [m | e2];
    [| injection H2 as ->; reflexivity].
  destruct (SM.disk_usage (Monitor.host_stats w)) as [d | e3];
    [discriminate H2 | injection H2 as ->; reflexivity].
Qed.

Lemma round_after_collect (w : Monitor.World) (S S' : Monitor.t)
    tr tr' stats :
  Monitor.collect_stats w S tr = (S', tr', Ok stats) ->
  Monitor.args S' = Monitor.args S ->
  Monitor.round w S tr =
    (S', tr' ++ closing_events w S stats, closing_result w S).
Proof.
  intros Hcol Hargs. unfold Monitor.round. erewrite bind_ok by exact Hcol.
  unfold Monitor.save_stats, Monitor.time_sleep, closing_events,
    save_events, closing_result, closing_failure, screen_failure,
    sleep_failure.
  rewrite <- Hargs. run.
  destruct (Monitor.write w), (Monitor.quiet (Monitor.args S')); simpl;
    try (destruct (Monitor.screen w) as [[] | e0]; simpl);
    destruct (Monitor.Qgtb (sys_cpu_percent (system stats)) 90),
      (Monitor.Qgtb (sys_memory_percent (system stats)) 90),
      (app_is_alive (application stats)); simpl;
    try (destruct (Monitor.interval (Monitor.args S') <? 0)%Z; simpl);
    try (destruct (Monitor.sleep w) as [[] | e]; simpl);
    rewrite <- ?app_assoc, ?app_nil_r; reflexivity.
Qed.

Lemma added_app {S A} (tr evs : list Event) (s : S) (r : result A) :
  added tr (s, tr ++ evs, r) = evs.
Proof.
  unfold added, trace_of. simpl.
  rewrite skipn_app, skipn_all, Nat.sub_diag. reflexivity.
Qed.

(** A round whose [collect_stats] returns. *)
Lemma round_returns (w : Monitor.World) (S : Monitor.t) tr :
  collect_failure w S = None ->
  exists stats : Stats,
    Monitor.collect_stats w S tr =
      (after_round w S, tr ++ collecting_events w S, Ok stats) /\
    Monitor.round w S tr =
      (after_round w S,
       tr ++ collecting_events w S ++ closing_events w S stats,
       closing_result w S) /\
    describes w S stats.
Proof.
  intros H.
  destruct (collect_stats_returns w S tr H) as [stats [Hcol Hd]].
  exists stats. split; [exact Hcol |]. split; [| exact Hd].
  rewrite (round_after_collect _ _ _ Hcol) by reflexivity.
  rewrite <- app_assoc. reflexivity.
Qed.

(** A round whose [collect_stats] raises. *)
Lemma round_raises (w : Monitor.World) (S : Monitor.t) tr e :
  collect_failure w S = Some e ->
  Monitor.collect_stats w S tr =
    (round_state w S, tr ++ aborted_events w S, Raise e) /\
  Monitor.round w S tr =
    (round_state w S, tr ++ aborted_events w S, Raise e).
Proof.
  unfold collect_failure, round_state, aborted_events. intros H.
  assert (Hcol : Monitor.collect_stats w S tr =
    (match first_failure (Monitor.host_history w) with
     | Some _ =>
         Monitor.set_system_monitor
           (partial_update (Monitor.host_history w)
                           (Monitor.system_monitor S)) S
     | None => after_round w S
     end,
     tr ++ match first_failure (Monitor.host_history w) with
           | Some _ => []
           | None => collecting_events w S
           end,
     Raise e)).
  { destruct (first_failure (Monitor.host_history w)) as [e1 |] eqn:H1.
    - injection H as <-. rewrite app_nil_r.
      apply collect_stats_aborts, H1.
    - destruct (lookup_failure w S) as [e3 |] eqn:H3.
      + injection H as <-.
        rewrite (collect_stats_lookup_fails _ _ _ H1 H3).
        unfold collecting_events, first_match. rewrite H3. reflexivity.
      + apply collect_stats_stats_query_fails; assumption. }
  split; [exact Hcol |].
  unfold Monitor.round. apply bind_raise. exact Hcol.
Qed.

Lemma round_state_returns (w : Monitor.World) (S : Monitor.t) :
  collect_failure w S = None -> round_state w S = after_round w S.
Proof.
  unfold collect_failure, round_state.
  destruct (first_failure (Monitor.host_history w));
    [discriminate | reflexivity].
Qed.

(** The monitor a round leaves. *)
Lemma round_state_eq (w : Monitor.World) (S : Monitor.t) tr :
  state_of (Monitor.round w S tr) = round_state w S /\
  state_of (Monitor.collect_stats w S tr) = round_state w S.
Proof.
  destruct (collect_failure w S) as [e |] eqn:H.
  - destruct (round_raises w S tr H) as [Hc Hr]. rewrite Hc, Hr.
    split; reflexivity.
  - destruct (round_returns w S tr H) as [stats [Hc [Hr _]]].
    rewrite Hc, Hr, (round_state_returns _ _ H). split; reflexivity.
Qed.

Lemma round_state_fields (w : Monitor.World) (S : Monitor.t) :
  Monitor.args (round_state w S) = Monitor.args S /\
  Monitor.is_running (round_state w S) = Monitor.is_running S /\
  PM.process_name (Monitor.process_monitor (round_state w S)) =
    PM.process_name (Monitor.process_monitor S) /\
  Monitor.system_monitor (round_state w S) =
    partial_update (Monitor.host_history w) (Monitor.system_monitor S) /\
  (Monitor.app_monitor (round_state w S) = Monitor.app_monitor S \/
   Monitor.app_monitor (round_state w S) =
     probe (Monitor.app_monitor S) (Monitor.net w)).
Proof.
  unfold round_state.
  destruct (first_failure (Monitor.host_history w)); simpl;
    repeat split; auto.
Qed.

Lemma closing_no_get w S stats :
  filter is_get (closing_events w S stats) = [].
Proof.
  unfold closing_events, save_events.
  destruct (Monitor.write w), (Monitor.quiet (Monitor.args S)),
    (screen_failure w S),
    (Monitor.Qgtb (sys_cpu_percent (system stats)) 90),
    (Monitor.Qgtb (sys_memory_percent (system stats)) 90),
    (app_is_alive (application stats)),
    (no_failure (sleep_failure w S)); reflexivity.
Qed.

Lemma collecting_gets w S :
  filter is_get (collecting_events w S) =
    [HttpGet (AM.get_arguments (AM.url (Monitor.app_monitor S)))].
Proof.
  unfold collecting_events. simpl. destruct (first_match w S); reflexivity.
Qed.

(** The GETs of a round. *)
Lemma round_gets (w : Monitor.World) (S : Monitor.t) tr :
  filter is_get (added tr (Monitor.round w S tr)) =
    if healthy (Monitor.host_history w)
    then [HttpGet (AM.get_arguments (AM.url (Monitor.app_monitor S)))]
    else [].
Proof.
  destruct (collect_failure w S) as [e |] eqn:H.
  - destruct (round_raises w S tr H) as [_ Hr]. rewrite Hr, added_app.
    unfold aborted_events.
    destruct (first_failure (Monitor.host_history w)) as [e1 |] eqn:H1.
    + destruct (healthy (Monitor.host_history w)) eqn:Hh; [| reflexivity].
      apply healthy_first_failure in Hh. congruence.
    + apply healthy_first_failure in H1. rewrite H1. apply collecting_gets.
  - destruct (round_returns w S tr H) as [stats [_ [Hr _]]].
    rewrite Hr, added_app, filter_app, closing_no_get, app_nil_r.
    unfold collect_failure in H.
    destruct (first_failure (Monitor.host_history w)) as [e1 |] eqn:H1;
      [discriminate H |].
    apply healthy_first_failure in H1. rewrite H1. apply collecting_gets.
Qed.
(** ** The GET of the probe *)

(** C5, as the code has it.  The GET of [check_health] is the only network
    call of the monitor: each call of [check_health] issues it once, to the
    configured URL and with no timeout, and a round issues it once, or not
    at all when [update_history] raises before the probe. *)
Theorem probe_get_has_no_timeout :
  (forall (n : AM.Net) (s : AM.t) (tr : list Event),
     trace_of (AM.check_health n s tr) =
       tr ++ [HttpGet {| req_url := AM.url s; req_timeout := None |}]) /\
  (forall (w : Monitor.World) (S : Monitor.t) (tr : list Event),
     filter is_get (added tr (Monitor.round w S tr)) =
       if healthy (Monitor.host_history w)
       then [HttpGet {| req_url := AM.url (Monitor.app_monitor S);
                        req_timeout := None |}]
       else []).
Proof.
  split.
  - intros n s tr.
    destruct (AM.reply n (AM.get_arguments (AM.url s))) as [code | msg] eqn:E.
    + rewrite (check_health_response_eq _ _ _ E). reflexivity.
    + rewrite (check_health_failure_eq _ _ _ E). reflexivity.
  - exact round_gets.
Qed.

(** C5 fails as stated: the GET of a probe carries no timeout. *)
Lemma probe_get_timeout_missing :
  ~ (forall (n : AM.Net) (s : AM.t),
       forallb has_timeout (trace_of (AM.check_health n s [])) = true).
Proof.
  intros H. specialize (H refusing (AM.init localhost)).
  vm_compute in H. discriminate H.
Qed.

(** ** A round without a matching process *)

Lemma find_nothing (w : Monitor.World) (S : Monitor.t) :
  result_of (PM.find_processes (Monitor.process_table w)
               (Monitor.process_monitor S) []) = Ok [] ->
  lookup_failure w S = None /\ matching w S = [] /\ first_match w S = None.
Proof.
  rewrite find_processes_eq. unfold result_of, first_match, lookup_failure,
    matching. simpl snd.
  destruct (snd (sweep (PM.process_name (Monitor.process_monitor S))
                       (Monitor.process_table w))) as [e |];
    [discriminate |].
  intros H. injection H as ->. repeat split.
Qed.

Lemma format_stats_process_lines (stats : Stats) :
  existsb is_process_line (Monitor.format_stats stats) =
    match process stats with Some _ => true | None => false end.
Proof.
  unfold Monitor.format_stats. destruct (process stats); reflexivity.
Qed.

Lemma round_events_no_process_call w s stats :
  existsb is_process_call (round_events w s stats) = false.
Proof.
  unfold round_events, save_events. rewrite !existsb_app.
  destruct (Monitor.write w), (Monitor.quiet (Monitor.args s)),
    (Monitor.Qgtb (sys_cpu_percent (system stats)) 90),
    (Monitor.Qgtb (sys_memory_percent (system stats)) 90),
    (app_is_alive (application stats)); reflexivity.
Qed.

Lemma closing_no_process_call w S stats :
  existsb is_process_call (closing_events w S stats) = false.
Proof.
  unfold closing_events, save_events.
  destruct (Monitor.write w), (Monitor.quiet (Monitor.args S)),
    (screen_failure w S),
    (Monitor.Qgtb (sys_cpu_percent (system stats)) 90),
    (Monitor.Qgtb (sys_memory_percent (system stats)) 90),
    (app_is_alive (application stats)),
    (no_failure (sleep_failure w S)); reflexivity.
Qed.

(** C8, as the code has it.  In a round where [find_processes] returns no
    process, [get_process_info] is not called.  If moreover no other step
    of the round raises, that is, the psutil queries of [update_history]
    and those made for the statistics answer, [print] succeeds or [quiet]
    is set, and [time.sleep] accepts the interval, then the process block
    of the statistics is empty and the round goes to its end: the
    statistics are written (or the failed write is logged), printed
    without a process block unless [quiet] is set, the alerts are
    evaluated and the loop sleeps. *)
Theorem round_without_process_completes
    (w : Monitor.World) (S : Monitor.t) (tr : list Event) :
  result_of (PM.find_processes (Monitor.process_table w)
               (Monitor.process_monitor S) []) = Ok [] ->
  existsb is_process_call (added tr (Monitor.round w S tr)) = false /\
  (healthy (Monitor.host_history w) = true ->
   healthy (Monitor.host_stats w) = true ->
   Monitor.quiet (Monitor.args S) = true \/ Monitor.screen w = Ok tt ->
   (0 <= Monitor.interval (Monitor.args S))%Z ->
   Monitor.sleep w = Ok tt ->
   exists stats : Stats,
     result_of (Monitor.collect_stats w S tr) = Ok stats /\
     process stats = None /\
     result_of (Monitor.round w S tr) = Ok tt /\
     trace_of (Monitor.round w S tr) = tr ++ round_events w S stats /\
     existsb is_process_call (round_events w S stats) = false /\
     existsb is_process_line (Monitor.format_stats stats) = false).
Proof.
  intros Hfind. destruct (find_nothing w S Hfind) as [H3 [Hm Hfm]].
  assert (Hcol : existsb is_process_call (collecting_events w S) = false).
  { unfold collecting_events. rewrite Hfm. reflexivity. }
  split.
  - destruct (collect_failure w S) as [e |] eqn:H.
    + destruct (round_raises w S tr H) as [_ Hr]. rewrite Hr, added_app.
      unfold aborted_events.
      destruct (first_failure (Monitor.host_history w)); [reflexivity |].
      exact Hcol.
    + destruct (round_returns w S tr H) as [stats [_ [Hr _]]].
      rewrite Hr, added_app, existsb_app, Hcol, closing_no_process_call.
      reflexivity.
  - intros H1 H2 Hscreen Hint Hsleep.
    apply healthy_first_failure in H1, H2.
    assert (H : collect_failure w S = None).
    { unfold collect_failure. rewrite H1, H3. exact H2. }
    assert (Hs : sleep_failure w S = None).
    { unfold sleep_failure. rewrite Hsleep.
      destruct (Z.ltb_spec (Monitor.interval (Monitor.args S)) 0);
        [lia | reflexivity]. }
    assert (Hp' : screen_failure w S = None).
    { unfold screen_failure.
      destruct Hscreen as [-> | ->]; [reflexivity |].
      destruct (Monitor.quiet (Monitor.args S)); reflexivity. }
    destruct (round_returns w S tr H) as [stats [Hc [Hr Hd]]].
    exists stats. rewrite Hc, Hr.
    destruct Hd as [_ [Hp _]]. rewrite Hfm in Hp.
    split; [reflexivity |]. split; [exact Hp |].
    unfold closing_result, closing_failure. rewrite Hp', Hs.
    split; [reflexivity |].
    split.
    { unfold trace_of. simpl. f_equal.
      unfold collecting_events, closing_events, round_events.
      rewrite Hfm, Hp', Hs.
      destruct (Monitor.quiet (Monitor.args S)); reflexivity. }
    split; [apply round_events_no_process_call |].
    rewrite format_stats_process_lines, Hp. reflexivity.
Qed.

(** The server is not running, the host answers: the round completes. *)
Lemma round_without_process_completes_witness :
  exists stats : Stats,
    result_of (Monitor.collect_stats quiet_round (Monitor.init default_args) [])
      = Ok stats /\
    process stats = None /\
    result_of (Monitor.round quiet_round (Monitor.init default_args) [])
      = Ok tt.
Proof.
  destruct (@round_without_process_completes quiet_round
              (Monitor.init default_args) [] eq_refl) as [_ H].
  destruct (H eq_refl eq_refl) as [stats [H1 [H2 [H3 _]]]].
  - right. reflexivity.
  - simpl. lia.
  - reflexivity.
  - exists stats. split; [exact H1 |]. split; [exact H2 | exact H3].
Defined.

(** C8 fails as stated: with no matching process, a round whose disk query
    for the statistics raises does not complete, and writes and prints
    nothing. *)
Lemma round_without_process_may_abort :
  ~ (forall (w : Monitor.World) (S : Monitor.t),
       result_of (PM.find_processes (Monitor.process_table w)
                    (Monitor.process_monitor S) []) = Ok [] ->
       result_of (Monitor.round w S []) = Ok tt).
Proof.
  intros H.
  specialize (H stats_query_fails (Monitor.init default_args) eq_refl).
  vm_compute in H. discriminate H.
Qed.

(** ** The error FIFO only grows *)

Lemma round_steps_errors (w : Monitor.World) (S : Monitor.t) tr :
  fifo_step (AM.errors (Monitor.app_monitor S))
    (AM.errors (Monitor.app_monitor (state_of (Monitor.round w S tr)))).
Proof.
  destruct (round_state_eq w S tr) as [-> _].
  destruct (round_state_fields w S) as [_ [_ [_ [_ [-> | ->]]]]].
  - left. reflexivity.
  - pose proof (step_errors (Monitor.app_monitor S)
                  (CheckHealth (Monitor.net w))) as H.
    exact H.
Qed.

(** C10.  Every method of [ApplicationMonitor], and a whole round of
    [Monitor], leaves the error FIFO as it was or appends one record to it,
    dropping the oldest one only at capacity; so along any sequence of calls
    from a new monitor the occupancy and the value of [get_error_rate] never
    decrease, whatever the later probes answer. *)
Theorem error_rate_never_decreases (u : string) (os1 os2 : list Op) :
  let s1 := steps os1 (AM.init u) in
  let s2 := steps os2 s1 in
  (forall s o, fifo_step (AM.errors s) (AM.errors (step s o))) /\
  (forall w S tr,
      fifo_step (AM.errors (Monitor.app_monitor S))
        (AM.errors (Monitor.app_monitor (state_of (Monitor.round w S tr))))) /\
  List.length (AM.errors s1) <= List.length (AM.errors s2) /\
  exists r1 r2 : num,
    result_of (AM.get_error_rate s1 []) = Ok r1 /\
    result_of (AM.get_error_rate s2 []) = Ok r2 /\
    (value r1 <= value r2)%Q.
Proof.
  intros s1 s2.
  assert (H0 : List.length (AM.errors (AM.init u)) <= AM.errors_maxlen)
    by (simpl; lia).
  destruct (steps_length os1 _ H0) as [_ H1].
  destruct (steps_length os2 _ H1) as [H12 H2].
  fold s1 in H1, H12. fold s2 in H12, H2.
  split; [exact step_errors |].
  split; [exact round_steps_errors |].
  split; [exact H12 |].
  exists (occupancy_rate (List.length (AM.errors s1))),
         (occupancy_rate (List.length (AM.errors s2))).
  rewrite !get_error_rate_eq.
  split; [reflexivity |]. split; [reflexivity |].
  apply occupancy_rate_monotone; assumption.
Qed.
(** ** The five history buffers *)

Lemma sample_eq (s : SM.t) (h : SM.Host) : sample s h = partial_update h s.
Proof. unfold sample. rewrite update_history_eq. reflexivity. Qed.

Lemma sample_cpu s h :
  SM.cpu_history (sample s h) =
    match cpu_sample h with
    | Some x => deque_append SM.maxlen (SM.cpu_history s) x
    | None => SM.cpu_history s
    end.
Proof.
  rewrite sample_eq. unfold partial_update, cpu_sample.
  destruct (SM.cpu_percent h), (SM.virtual_memory h), (SM.disk_usage h);
    reflexivity.
Qed.

Lemma sample_memory s h :
  SM.memory_history (sample s h) =
    match memory_sample h with
    | Some x => deque_append SM.maxlen (SM.memory_history s) x
    | None => SM.memory_history s
    end.
Proof.
  rewrite sample_eq. unfold partial_update, memory_sample.
  destruct (SM.cpu_percent h), (SM.virtual_memory h), (SM.disk_usage h);
    reflexivity.
Qed.

Lemma sample_disk s h :
  SM.disk_history (sample s h) =
    match disk_sample h with
    | Some x => deque_append SM.maxlen (SM.disk_history s) x
    | None => SM.disk_history s
    end.
Proof.
  rewrite sample_eq. unfold partial_update, disk_sample.
  destruct (SM.cpu_percent h), (SM.virtual_memory h), (SM.disk_usage h);
    reflexivity.
Qed.

Lemma samples_histories hs : forall s,
  SM.cpu_history (samples hs s) =
    deque_extend SM.maxlen (SM.cpu_history s) (pick cpu_sample hs) /\
  SM.memory_history (samples hs s) =
    deque_extend SM.maxlen (SM.memory_history s) (pick memory_sample hs) /\
  SM.disk_history (samples hs s) =
    deque_extend SM.maxlen (SM.disk_history s) (pick disk_sample hs).
Proof.
  induction hs as [| h hs IH]; intros s; [repeat split |].
  simpl. destruct (IH (sample s h)) as [Hc [Hm Hd]].
  rewrite Hc, Hm, Hd, sample_cpu, sample_memory, sample_disk.
  destruct (cpu_sample h), (memory_sample h), (disk_sample h); repeat split.
Qed.

(** C3.  A history buffer of capacity [n] that received the values [xs],
    [k] of them, holds [min k n] values, which are the last ones appended in
    the order they were appended; when [k > n] the oldest one kept is the
    [(k-n+1)]-th appended; the length never exceeds [n], and an append either
    adds the value at the end or also drops the head, nothing else.  The
    CPU, memory, disk and latency histories are such buffers with [n = 60],
    the error FIFO is one with [n = 100], fed with the values the calls of
    [update_history] and [check_health] append. *)
Theorem history_buffer_keeps_last (A : Type) (n : nat) (xs : list A) :
  let k := List.length xs in
  let d := deque_extend n [] xs in
  (List.length d = Nat.min k n /\
   d = skipn (k - n) xs /\
   (if n <? k then hd_error d = nth_error xs (k - n) else d = xs) /\
   List.length d <= n /\
   (forall x, deque_append n d x = d ++ [x] \/
              deque_append n d x = tl d ++ [x] /\ List.length d = n /\ 0 < n
              \/ n = 0)) /\
  (forall hs : list SM.Host,
     let s := samples hs SM.init in
     SM.cpu_history s = deque_extend 60 [] (pick cpu_sample hs) /\
     SM.memory_history s = deque_extend 60 [] (pick memory_sample hs) /\
     SM.disk_history s = deque_extend 60 [] (pick disk_sample hs)) /\
  (forall (u : string) (ns : list AM.Net),
     let s := probes ns (AM.init u) in
     AM.response_times s = deque_extend 60 [] (latencies u ns) /\
     AM.errors s = deque_extend 100 [] (failures u ns)).
Proof.
  intros k d. split; [| split].
  - assert (Hd : d = skipn (k - n) xs).
    { unfold d. rewrite deque_extend_skipn by (simpl; lia). reflexivity. }
    assert (Hlen : List.length d = Nat.min k n).
    { rewrite Hd, length_skipn. fold k. lia. }
    split; [exact Hlen |]. split; [exact Hd |]. split; [| split; [lia |]].
    + destruct (Nat.ltb_spec n k) as [Hlt | Hge].
      * rewrite Hd. apply hd_error_skipn.
      * rewrite Hd. replace (k - n) with 0 by lia. reflexivity.
    + intros x. destruct (Nat.lt_ge_cases (List.length d) n) as [Hlt | Hge].
      * left. apply deque_append_room, Hlt.
      * destruct n as [| n']; [right; right; reflexivity |].
        right; left. repeat split; try lia.
        rewrite deque_append_full by assumption.
        destruct d; [simpl in *; lia | reflexivity].
  - intros hs s. exact (samples_histories hs SM.init).
  - intros u ns s. unfold s.
    rewrite probes_response_times, probes_errors. split; reflexivity.
Qed.

(** ** The scenarios of the specification, evaluated *)

Example deque_keeps_last_three :
  deque_extend 3 [] [1; 2; 3; 4; 5] = [3; 4; 5].
Proof. reflexivity. Qed.

Example deque_of_capacity_zero : deque_extend 0 [] [1; 2; 3] = [].
Proof. reflexivity. Qed.

Example lower_python : lower "Python3.EXE" = "python3.exe".
Proof. reflexivity. Qed.

Example contains_examples :
  contains "python" "python3" = true /\
  contains "Python" "python3" = false /\
  contains "server.py" "/srv/app/server.py" = true /\
  contains "" "" = true.
Proof. repeat split. Qed.

(** Five probes answered with 200 in 50 ms: alive, an average of 0.05 (the
    float) and an error rate of 0. *)
Example five_good_probes :
  let s := probes (repeat (answering 200) 5) (AM.init localhost) in
  result_of (AM.get_error_rate s []) = Ok (Int 0) /\
  result_of (AM.get_average_response_time s []) =
    Ok (Float (float_of_Q (1 # 20))) /\
  (exists h, result_of (AM.check_health (answering 200) s []) = Ok h /\
             is_alive h = true).
Proof.
  intros s. split; [reflexivity |]. split.
  - vm_compute. reflexivity.
  - eexists. split; reflexivity.
Qed.

(** Three refused probes: the error rate is 3, exactly. *)
Example three_refused_probes :
  let s := probes (repeat refusing 3) (AM.init localhost) in
  exists r, result_of (AM.get_error_rate s []) = Ok r /\ (value r == 3)%Q.
Proof.
  intros s. eexists. split; [vm_compute; reflexivity |].
  vm_compute. reflexivity.
Qed.

(** The server running: its metrics are asked for, once. *)
Example round_with_server :
  let w :=
    {| Monitor.host_history := all_queries_answer;
       Monitor.net := answering 200;
       Monitor.process_table := other_processes ++ [server_process];
       Monitor.metrics := no_metrics;
       Monitor.now := "2024-01-01T00:00:05";
       Monitor.host_stats := all_queries_answer;
       Monitor.write := Monitor.Written;
       Monitor.screen := Ok tt;
       Monitor.sleep := Ok tt |} in
  filter is_process_call
    (trace_of (Monitor.round w (Monitor.init default_args) []))
  = [ProcessInfoCall 4242].
Proof. vm_compute. reflexivity. Qed.


(** What else ends a round with no matching process: a process whose name
    could not be read, a [print] that standard output refuses, a negative
    interval. *)
Example unreadable_process_ends_round :
  let w :=
    {| Monitor.host_history := all_queries_answer;
       Monitor.net := answering 200;
       Monitor.process_table := [unreadable_process];
       Monitor.metrics := no_metrics;
       Monitor.now := "2024-01-01T00:00:05";
       Monitor.host_stats := all_queries_answer;
       Monitor.write := Monitor.Written;
       Monitor.screen := Ok tt;
       Monitor.sleep := Ok tt |} in
  let out := Monitor.round w (Monitor.init default_args) [] in
  result_of out = Raise AttributeError /\
  filter is_write (trace_of out) = [].
Proof. vm_compute. split; reflexivity. Qed.

Example failed_print_ends_round :
  let w :=
    {| Monitor.host_history := all_queries_answer;
       Monitor.net := answering 200;
       Monitor.process_table := other_processes;
       Monitor.metrics := no_metrics;
       Monitor.now := "2024-01-01T00:00:05";
       Monitor.host_stats := all_queries_answer;
       Monitor.write := Monitor.Written;
       Monitor.screen := Raise (OSError "Broken pipe");
       Monitor.sleep := Ok tt |} in
  let out := Monitor.round w (Monitor.init default_args) [] in
  result_of out = Raise (OSError "Broken pipe") /\
  filter is_sleep (trace_of out) = [].
Proof. vm_compute. split; reflexivity. Qed.

Example negative_interval_ends_round :
  let a :=
    {| Monitor.arg_url := localhost; Monitor.interval := -1;
       Monitor.quiet := false |} in
  let out := Monitor.round quiet_round (Monitor.init a) [] in
  result_of out = Raise ValueError /\
  filter is_sleep (trace_of out) = [] /\
  run_exit (main a [quiet_round]) = SysExit 1.
Proof. vm_compute. repeat split. Qed.
(** * Further properties of [monitor.py] *)

(** ** Probes and the two statistics *)

(** X1.  The two statistics are independent: a probe whose GET fails leaves
    the value of [get_average_response_time] as it was, and a probe that is
    answered, whatever the status code, leaves the value of [get_error_rate]
    as it was. *)
Theorem probe_moves_one_statistic (n : AM.Net) (s : AM.t) (tr : list Event) :
  let s' := state_of (AM.check_health n s tr) in
  match AM.reply n (AM.get_arguments (AM.url s)) with
  | AM.Failure _ =>
      result_of (AM.get_average_response_time s' []) =
      result_of (AM.get_average_response_time s [])
  | AM.Response _ =>
      result_of (AM.get_error_rate s' []) =
      result_of (AM.get_error_rate s [])
  end.
Proof.
  intros s'. unfold s'.
  destruct (AM.reply n (AM.get_arguments (AM.url s))) as [code | msg] eqn:E.
  - rewrite (check_health_response_eq _ _ _ E).
    rewrite !get_error_rate_eq. reflexivity.
  - rewrite (check_health_failure_eq _ _ _ E).
    apply get_average_depends_on_times. reflexivity.
Qed.

Lemma steps_keep_full os (s : AM.t) :
  List.length (AM.errors s) = AM.errors_maxlen ->
  List.length (AM.errors (steps os s)) = AM.errors_maxlen.
Proof.
  intros H. assert (Hle : List.length (AM.errors s) <= AM.errors_maxlen) by lia.
  pose proof (steps_length os s Hle). lia.
Qed.

(** X2.  The error rate saturates: once the FIFO holds 100 records,
    [get_error_rate] returns exactly 100 after any further sequence of
    calls, however many probes are answered. *)
Theorem error_rate_saturates (s : AM.t) (os : list Op) :
  List.length (AM.errors s) = 100 ->
  let s' := steps os s in
  List.length (AM.errors s') = 100 /\
  exists r : num,
    result_of (AM.get_error_rate s' []) = Ok r /\ (value r == 100)%Q.
Proof.
  intros H s'. pose proof (steps_keep_full os s H) as H'. fold s' in H'.
  split; [exact H' |].
  exists (occupancy_rate 100). rewrite get_error_rate_eq.
  unfold result_of. simpl snd. rewrite H'.
  split; [reflexivity | vm_compute; reflexivity].
Qed.

(** A hundred refused probes, then five answered ones. *)
Lemma error_rate_saturates_witness :
  let s := probes (repeat refusing 100) (AM.init localhost) in
  let s' := steps (repeat (CheckHealth (answering 200)) 5) s in
  exists r : num,
    result_of (AM.get_error_rate s' []) = Ok r /\ (value r == 100)%Q.
Proof.
  intros s s'.
  destruct (@error_rate_saturates s (repeat (CheckHealth (answering 200)) 5))
    as [_ H].
  - vm_compute. reflexivity.
  - exact H.
Defined.

Lemma rate_of_one : (value (occupancy_rate 1) == 1)%Q.
Proof. vm_compute. reflexivity. Qed.

(** X3.  On a monitor that has only been probed since it was built,
    [get_error_rate] returns the integer 0 exactly when no probe has failed,
    and a value of at least 1 as soon as one has. *)
Theorem error_rate_zero_iff_no_failure (u : string) (ns : list AM.Net) :
  let s := probes ns (AM.init u) in
  match failures u ns with
  | [] => result_of (AM.get_error_rate s []) = Ok (Int 0)
  | _ :: _ =>
      exists r : num,
        result_of (AM.get_error_rate s []) = Ok r /\ (1 <= value r)%Q
  end.
Proof.
  intros s.
  assert (Hlen : List.length (AM.errors s) =
                 Nat.min (List.length (failures u ns)) 100).
  { unfold s. rewrite probes_errors. simpl.
    rewrite deque_extend_skipn by (simpl; lia).
    rewrite length_skipn. simpl. unfold AM.errors_maxlen. lia. }
  rewrite get_error_rate_eq. unfold result_of. simpl snd.
  destruct (failures u ns) as [| f fs].
  - simpl in Hlen. rewrite Hlen. reflexivity.
  - eexists. split; [reflexivity |].
    rewrite <- rate_of_one.
    apply occupancy_rate_monotone; simpl in Hlen; lia.
Qed.

Lemma pick_partition (u : string) (ns : list AM.Net) :
  List.length (latencies u ns) + List.length (failures u ns) = List.length ns.
Proof.
  unfold latencies, failures, latency_of, failure_of.
  induction ns as [| n ns IH]; [reflexivity |]. simpl.
  destruct (AM.reply n (AM.get_arguments u)); simpl; lia.
Qed.

(** X4.  Every probe is recorded once: over the first 60 probes of a new
    monitor, the latency history and the error FIFO together hold as many
    entries as probes were made. *)
Theorem every_probe_recorded_once (u : string) (ns : list AM.Net) :
  List.length ns <= 60 ->
  let s := probes ns (AM.init u) in
  List.length (AM.response_times s) + List.length (AM.errors s)
    = List.length ns.
Proof.
  intros Hlen s. unfold s.
  rewrite probes_response_times, probes_errors. simpl.
  rewrite !deque_extend_skipn by (simpl; lia).
  rewrite !length_skipn. simpl.
  pose proof (pick_partition u ns).
  unfold AM.response_maxlen, AM.errors_maxlen. lia.
Qed.

Lemma every_probe_recorded_once_witness :
  let s := probes [answering 200; refusing; answering 503; refusing]
                  (AM.init localhost) in
  List.length (AM.response_times s) + List.length (AM.errors s) = 4.
Proof.
  apply (@every_probe_recorded_once localhost
           [answering 200; refusing; answering 503; refusing]).
  simpl. lia.
Defined.

(** ** The signature test of [find_processes] *)

Section StringFacts.
Local Open Scope string_scope.

Lemma prefix_split (n h : string) :
  prefix n h = true <-> exists post, h = n ++ post.
Proof.
  revert h. induction n as [| a n IH]; intros h; simpl.
  - split; [intros _; exists h; reflexivity |].
    intros _. destruct h; reflexivity.
  - destruct h as [| b h]; simpl.
    + split; [discriminate | intros [post H]; discriminate H].
    + destruct (ascii_dec a b) as [-> | Hne].
      * rewrite IH. split; intros [post H]; exists post.
        -- rewrite H. reflexivity.
        -- injection H as H. exact H.
      * split; [discriminate |].
        intros [post H]. injection H as Hab _. congruence.
Qed.

(** [contains] is the substring test. *)
Lemma contains_split (n h : string) :
  contains n h = true <-> exists pre post, h = pre ++ n ++ post.
Proof.
  induction h as [| b h IH]; cbn [contains].
  - rewrite orb_false_r, prefix_split. split.
    + intros [post H]. exists "", post. exact H.
    + intros [pre [post H]]. destruct pre as [| c pre]; [| discriminate H].
      exists post. exact H.
  - rewrite orb_true_iff, IH, prefix_split. split.
    + intros [[post H] | [pre [post H]]].
      * exists "", post. exact H.
      * exists (String b pre), post. simpl. rewrite H. reflexivity.
    + intros [pre [post H]]. destruct pre as [| c pre].
      * left. exists post. exact H.
      * right. simpl in H. injection H as _ H. exists pre, post. exact H.
Qed.

Lemma lower_ascii_idem (c : ascii) :
  lower_ascii (lower_ascii c) = lower_ascii c.
Proof. destruct c as [[] [] [] [] [] [] [] []]; reflexivity. Qed.

Lemma lower_idem (s : string) : lower (lower s) = lower s.
Proof.
  induction s as [| c s IH]; [reflexivity |].
  simpl. rewrite lower_ascii_idem, IH. reflexivity.
Qed.

Lemma lower_app (s t : string) : lower (s ++ t) = lower s ++ lower t.
Proof.
  induction s as [| c s IH]; [reflexivity |].
  simpl. rewrite IH. reflexivity.
Qed.

Lemma lower_length (s : string) : String.length (lower s) = String.length s.
Proof.
  induction s as [| c s IH]; [reflexivity |].
  simpl. rewrite IH. reflexivity.
Qed.

Lemma append_same_length (a a' b b' : string) :
  String.length a = String.length a' ->
  a ++ b = a' ++ b' -> a = a' /\ b = b'.
Proof.
  revert a'. induction a as [| c a IH]; intros [| c' a'] Hlen H;
    try discriminate Hlen.
  - split; [reflexivity | exact H].
  - simpl in *. injection H as Hc H. injection Hlen as Hlen.
    destruct (IH a' Hlen H) as [-> ->]. subst. split; reflexivity.
Qed.

(** A piece of a lower-case string is in lower case. *)
Lemma piece_of_lowered (f name : string) :
  contains f (lower name) = true -> lower f = f.
Proof.
  intros H. apply contains_split in H. destruct H as [pre [post H]].
  pose proof (lower_idem name) as Hid. rewrite H in Hid.
  rewrite !lower_app in Hid.
  apply append_same_length in Hid; [| apply lower_length].
  destruct Hid as [_ Hid].
  assert (Hl : String.length (lower f) = String.length f) by apply lower_length.
  revert Hid Hl. generalize (lower f) as g. clear. intros g Hid Hl.
  apply append_same_length in Hid; [tauto | exact Hl].
Qed.

End StringFacts.

Lemma selected_split (name_filter : string) (p : PM.Process) :
  selected name_filter p = true <->
  exists name cmdline,
    PM.info_name p = Some name /\ PM.info_cmdline p = Some cmdline /\
    (exists pre post, lower name = (pre ++ name_filter ++ post)%string) /\
    exists cmd, In cmd cmdline /\
      exists pre post, lower cmd = (pre ++ "server.py" ++ post)%string.
Proof.
  unfold selected, PM.examine.
  destruct (PM.info_name p) as [name |].
  - destruct (contains name_filter (lower name)) eqn:Hn.
    + destruct (PM.info_cmdline p) as [cmdline |].
      * rewrite existsb_truthy by reflexivity.
        rewrite existsb_exists. apply contains_split in Hn. split.
        -- intros [cmd [Hin Hc]]. exists name, cmdline.
           split; [reflexivity |]. split; [reflexivity |].
           split; [exact Hn |].
           exists cmd. split; [exact Hin |]. apply contains_split, Hc.
        -- intros [name' [cmdline' [Hi [Hc' [_ [cmd [Hin Hc]]]]]]].
           injection Hi as ->. injection Hc' as ->.
           exists cmd. split; [exact Hin |]. apply contains_split, Hc.
      * split; [discriminate |].
        intros [? [? [_ [H _]]]]. discriminate H.
    + split; [discriminate |].
      intros [name' [cmdline' [Hi [_ [Hsplit _]]]]].
      injection Hi as ->. apply contains_split in Hsplit. congruence.
  - split; [discriminate | intros [? [? [H _]]]; discriminate H].
Qed.

(** X5.  On a table of ASCII names and arguments in which every process
    can be examined (no name is [None], and no command line behind a
    matching name is), [find_processes] returns, in the order of
    enumeration and whatever an earlier call left in [self.processes], the
    processes whose lower-cased name has the filter (as given) as a
    substring and one of whose arguments, lower-cased, has [server.py] as a
    substring; [self.processes] is left equal to the list returned. *)
Theorem find_processes_selects
    (name_filter : string) (earlier table : list PM.Process)
    (tr : list Event) :
  forallb ascii_process table = true ->
  examinable name_filter table = true ->
  let s := {| PM.process_name := name_filter; PM.processes := earlier |} in
  exists (found : list PM.Process) (keep : PM.Process -> bool),
    PM.find_processes table s tr =
      ({| PM.process_name := name_filter; PM.processes := found |},
       tr, Ok found) /\
    found = filter keep table /\
    forall p, keep p = true <->
      exists name cmdline,
        PM.info_name p = Some name /\ PM.info_cmdline p = Some cmdline /\
        (exists pre post, lower name = (pre ++ name_filter ++ post)%string) /\
        exists cmd, In cmd cmdline /\
          exists pre post, lower cmd = (pre ++ "server.py" ++ post)%string.
Proof.
  intros _ Hex s.
  exists (filter (selected name_filter) table), (selected name_filter).
  split.
  - rewrite find_processes_eq. simpl.
    rewrite (sweep_examinable _ _ Hex). reflexivity.
  - split; [reflexivity |]. intros p. apply selected_split.
Qed.

Lemma find_processes_selects_witness :
  result_of
    (PM.find_processes (other_processes ++ [server_process])
       {| PM.process_name := "python"; PM.processes := other_processes |} [])
  = Ok [server_process].
Proof.
  destruct (@find_processes_selects "python" other_processes
              (other_processes ++ [server_process]) [] eq_refl eq_refl)
    as [found [keep [H [Hf _]]]].
  rewrite H. unfold result_of. simpl snd. f_equal.
  rewrite find_processes_eq in H. injection H as H _. exact (eq_sym H).
Defined.

Lemma filter_none {A} (f : A -> bool) (l : list A) :
  (forall x, In x l -> f x = false) -> filter f l = [].
Proof.
  intros H. induction l as [| a l IH]; [reflexivity |].
  simpl. rewrite H by (left; reflexivity).
  apply IH. intros x Hx. apply H. right. exact Hx.
Qed.

Lemma examine_capital (name_filter : string) (p : PM.Process) :
  lower name_filter <> name_filter ->
  PM.examine name_filter p =
    match PM.info_name p with
    | Some _ => Ok false
    | None => Raise AttributeError
    end.
Proof.
  intros Hcap. unfold PM.examine.
  destruct (PM.info_name p) as [name |]; [| reflexivity].
  destruct (contains name_filter (lower name)) eqn:Hn; [| reflexivity].
  apply piece_of_lowered in Hn. contradiction.
Qed.

(** X6.  A filter that contains a capital ASCII letter selects nothing: on
    every table in which no name is [None], [find_processes] returns the
    empty list, whatever the command lines are. *)
Theorem capital_in_filter_selects_nothing
    (name_filter : string) (earlier table : list PM.Process)
    (tr : list Event) :
  lower name_filter <> name_filter ->
  forallb (fun p => match PM.info_name p with
                    | Some _ => true
                    | None => false
                    end) table = true ->
  PM.find_processes table
    {| PM.process_name := name_filter; PM.processes := earlier |} tr =
  ({| PM.process_name := name_filter; PM.processes := [] |}, tr, Ok []).
Proof.
  intros Hcap Hnames. rewrite find_processes_eq. simpl.
  assert (Hex : examinable name_filter table = true).
  { unfold examinable. rewrite forallb_forall in *. intros p Hp.
    specialize (Hnames p Hp). rewrite (examine_capital p Hcap).
    destruct (PM.info_name p); [reflexivity | discriminate Hnames]. }
  rewrite (sweep_examinable _ _ Hex). simpl.
  rewrite filter_none; [reflexivity |].
  intros p _. unfold selected. rewrite (examine_capital p Hcap).
  destruct (PM.info_name p); reflexivity.
Qed.

Lemma capital_in_filter_selects_nothing_witness :
  result_of
    (PM.find_processes (other_processes ++ [server_process])
       {| PM.process_name := "PYTHON"; PM.processes := [server_process] |} [])
  = Ok [].
Proof.
  rewrite (@capital_in_filter_selects_nothing "PYTHON" [server_process]
             (other_processes ++ [server_process]) []).
  - reflexivity.
  - vm_compute. discriminate.
  - reflexivity.
Defined.

Lemma sweep_app (name_filter : string) (before after : list PM.Process) :
  examinable name_filter before = true ->
  sweep name_filter (before ++ after) =
    (filter (selected name_filter) before ++ fst (sweep name_filter after),
     snd (sweep name_filter after)).
Proof.
  unfold examinable, selected.
  induction before as [| p before IH]; intros H.
  - simpl. destruct (sweep name_filter after); reflexivity.
  - simpl in H. apply andb_true_iff in H. destruct H as [Hp Hrest].
    simpl. destruct (PM.examine name_filter p) as [hit | e];
      [| discriminate Hp].
    rewrite (IH Hrest). destruct hit; reflexivity.
Qed.

(** X18.  A process that cannot be examined is not skipped: when the loop
    of [find_processes] reaches a process whose name is [None] it raises
    [AttributeError], whatever the filter, and when it reaches one whose
    name matches and whose command line is [None] it raises [TypeError];
    [self.processes] then holds the matches found before that process, and
    the processes after it are not looked at. *)
Theorem unreadable_process_stops_find_processes
    (name_filter : string) (earlier before after : list PM.Process)
    (p : PM.Process) (e : exn) (tr : list Event) :
  examinable name_filter before = true ->
  PM.examine name_filter p = Raise e ->
  PM.find_processes (before ++ p :: after)
    {| PM.process_name := name_filter; PM.processes := earlier |} tr =
  ({| PM.process_name := name_filter;
      PM.processes := filter (selected name_filter) before |},
   tr, Raise e) /\
  (e = AttributeError /\ PM.info_name p = None \/
   e = TypeError /\ PM.info_cmdline p = None /\
   exists name, PM.info_name p = Some name /\
                contains name_filter (lower name) = true).
Proof.
  intros Hbefore Hp. split.
  - rewrite find_processes_eq. simpl.
    rewrite (sweep_app _ _ _ Hbefore). simpl. rewrite Hp. simpl.
    rewrite app_nil_r. reflexivity.
  - unfold PM.examine in Hp.
    destruct (PM.info_name p) as [name |].
    + destruct (contains name_filter (lower name)) eqn:Hn;
        [| discriminate Hp].
      destruct (PM.info_cmdline p); [discriminate Hp |].
      injection Hp as <-. right. split; [reflexivity |].
      split; [reflexivity |]. exists name. split; [reflexivity | exact Hn].
    + injection Hp as <-. left. split; reflexivity.
Qed.

Lemma unreadable_process_stops_find_processes_witness :
  PM.find_processes (other_processes ++ unreadable_process :: [server_process])
    PM.init [] =
  (PM.init, [], Raise AttributeError).
Proof.
  destruct (@unreadable_process_stops_find_processes "python" []
              other_processes [server_process] unreadable_process
              AttributeError [] eq_refl eq_refl) as [H _].
  exact H.
Defined.

(** ** What ends a round, and what does not *)

Lemma round_result (w : Monitor.World) (S : Monitor.t) tr :
  result_of (Monitor.round w S tr) =
    match round_failure w S with Some e => Raise e | None => Ok tt end.
Proof.
  unfold round_failure. destruct (collect_failure w S) as [e |] eqn:H.
  - destruct (round_raises w S tr H) as [_ ->]. reflexivity.
  - destruct (round_returns w S tr H) as [stats [_ [-> _]]].
    unfold closing_result, result_of. simpl.
    destruct (closing_failure w S); reflexivity.
Qed.

Lemma sleep_failure_none_iff (w : Monitor.World) (S : Monitor.t) :
  sleep_failure w S = None <->
  (0 <= Monitor.interval (Monitor.args S))%Z /\ Monitor.sleep w = Ok tt.
Proof.
  unfold sleep_failure.
  destruct (Z.ltb_spec (Monitor.interval (Monitor.args S)) 0).
  - split; [discriminate | intros [? _]; lia].
  - destruct (Monitor.sleep w) as [[] | e].
    + split; [intros _; split; [assumption | reflexivity] | reflexivity].
    + split; [discriminate | intros [_ ?]; discriminate].
Qed.

Lemma collect_failure_none_iff (w : Monitor.World) (S : Monitor.t) :
  collect_failure w S = None <->
  healthy (Monitor.host_history w) = true /\
  examinable (PM.process_name (Monitor.process_monitor S))
             (Monitor.process_table w) = true /\
  healthy (Monitor.host_stats w) = true.
Proof.
  unfold collect_failure, lookup_failure.
  rewrite !healthy_first_failure, <- sweep_stop_iff.
  destruct (first_failure (Monitor.host_history w)).
  - split; [discriminate | intros [? _]; discriminate].
  - destruct (snd (sweep (PM.process_name (Monitor.process_monitor S))
                         (Monitor.process_table w))).
    + split; [discriminate | intros [_ [? _]]; discriminate].
    + split; [intros H; repeat split; exact H | intros [_ [_ H]]; exact H].
Qed.

Lemma screen_failure_none_iff (w : Monitor.World) (S : Monitor.t) :
  screen_failure w S = None <->
  Monitor.quiet (Monitor.args S) = true \/ Monitor.screen w = Ok tt.
Proof.
  unfold screen_failure. destruct (Monitor.quiet (Monitor.args S)).
  - split; [intros _; left; reflexivity | reflexivity].
  - destruct (Monitor.screen w) as [[] | e].
    + split; [intros _; right; reflexivity | reflexivity].
    + split; [discriminate | intros [? | ?]; discriminate].
Qed.

Lemma round_failure_none_iff (w : Monitor.World) (S : Monitor.t) :
  round_failure w S = None <->
  healthy (Monitor.host_history w) = true /\
  examinable (PM.process_name (Monitor.process_monitor S))
             (Monitor.process_table w) = true /\
  healthy (Monitor.host_stats w) = true /\
  (Monitor.quiet (Monitor.args S) = true \/ Monitor.screen w = Ok tt) /\
  (0 <= Monitor.interval (Monitor.args S))%Z /\
  Monitor.sleep w = Ok tt.
Proof.
  unfold round_failure, closing_failure.
  pose proof (collect_failure_none_iff w S) as Hc.
  pose proof (screen_failure_none_iff w S) as Hp.
  pose proof (sleep_failure_none_iff w S) as Hs.
  destruct (collect_failure w S) as [e |].
  - split; [discriminate |].
    intros [H1 [H2 [H3 _]]].
    assert (Some e = None) by (apply Hc; repeat split; assumption).
    discriminate.
  - destruct (screen_failure w S) as [e |].
    + split; [discriminate |].
      intros [_ [_ [_ [H _]]]]. apply Hp in H. discriminate H.
    + destruct (sleep_failure w S) as [e |].
      * split; [discriminate |].
        intros [_ [_ [_ [_ H]]]]. apply Hs in H. discriminate H.
      * split; [| reflexivity]. intros _.
        destruct Hc as [Hc _]. destruct Hp as [Hp _]. destruct Hs as [Hs _].
        destruct (Hc eq_refl) as [H1 [H2 H3]].
        destruct (Hs eq_refl) as [H4 H5].
        split; [exact H1 |]. split; [exact H2 |]. split; [exact H3 |].
        split; [exact (Hp eq_refl) |]. split; [exact H4 | exact H5].
Qed.

(** X7.  The loop body runs to its end exactly when none of its calls that
    can raise does: the three psutil queries of [update_history] and the
    three made for the statistics answer, every process of the table can
    be examined by [find_processes], [print] succeeds unless [quiet] is
    set, and [time.sleep] accepts the interval.  What the probe returns,
    whether a process matches, whether its metrics can be read and whether
    the statistics file can be written play no part. *)
Theorem round_completes_iff_nothing_raises
    (w : Monitor.World) (S : Monitor.t) (tr : list Event) :
  result_of (Monitor.round w S tr) = Ok tt <->
  healthy (Monitor.host_history w) = true /\
  examinable (PM.process_name (Monitor.process_monitor S))
             (Monitor.process_table w) = true /\
  healthy (Monitor.host_stats w) = true /\
  (Monitor.quiet (Monitor.args S) = true \/ Monitor.screen w = Ok tt) /\
  (0 <= Monitor.interval (Monitor.args S))%Z /\
  Monitor.sleep w = Ok tt.
Proof.
  rewrite round_result, <- round_failure_none_iff.
  destruct (round_failure w S); split; try reflexivity; discriminate.
Qed.

(** ** The process block *)

Lemma collect_stats_ok_inv (w : Monitor.World) (S : Monitor.t) tr stats :
  result_of (Monitor.collect_stats w S tr) = Ok stats ->
  collect_failure w S = None /\
  Monitor.collect_stats w S tr =
    (after_round w S, tr ++ collecting_events w S, Ok stats) /\
  Monitor.round w S tr =
    (after_round w S,
     tr ++ collecting_events w S ++ closing_events w S stats,
     closing_result w S) /\
  describes w S stats.
Proof.
  intros H. destruct (collect_failure w S) as [e |] eqn:Hf.
  - destruct (round_raises w S tr Hf) as [Hc _].
    rewrite Hc in H. discriminate H.
  - destruct (round_returns w S tr Hf) as [stats' [Hc [Hr Hd]]].
    rewrite Hc in H. injection H as <-.
    split; [reflexivity |]. split; [exact Hc |]. split; [exact Hr | exact Hd].
Qed.

Lemma find_some (w : Monitor.World) (S : Monitor.t) first others :
  result_of (PM.find_processes (Monitor.process_table w)
               (Monitor.process_monitor S) []) = Ok (first :: others) ->
  first_match w S = Some first.
Proof.
  rewrite find_processes_eq. unfold result_of, first_match, lookup_failure,
    matching. simpl snd.
  destruct (snd (sweep (PM.process_name (Monitor.process_monitor S))
                       (Monitor.process_table w))) as [e |];
    [discriminate |].
  intros H. injection H as ->. reflexivity.
Qed.

(** X8.  When several processes match, only the first one in enumeration
    order is inspected, and it is inspected once: a [collect_stats] that
    returns has called [get_process_info] for that process alone, and the
    process block of the statistics is what that call returned. *)
Theorem only_first_match_is_inspected
    (w : Monitor.World) (S : Monitor.t) (tr : list Event) (stats : Stats)
    (first : PM.Process) (others : list PM.Process) :
  result_of (Monitor.collect_stats w S tr) = Ok stats ->
  result_of (PM.find_processes (Monitor.process_table w)
               (Monitor.process_monitor S) []) = Ok (first :: others) ->
  filter is_process_call (added tr (Monitor.collect_stats w S tr))
    = [ProcessInfoCall (PM.pid first)] /\
  Ok (process stats) =
    result_of (PM.get_process_info (Monitor.metrics w) first
                 (Monitor.process_monitor S) []).
Proof.
  intros Hok Hfind. apply find_some in Hfind.
  destruct (collect_stats_ok_inv w S tr Hok) as [_ [Hc [_ Hd]]].
  rewrite Hc, added_app. unfold collecting_events. rewrite Hfind.
  split; [reflexivity |].
  destruct Hd as [_ [Hp _]]. rewrite Hfind in Hp.
  rewrite Hp, get_process_info_eq. reflexivity.
Qed.

(** The server runs twice: the first instance is the one reported. *)
Lemma only_first_match_is_inspected_witness :
  let twin :=
    {| PM.pid := 5000;
       PM.info_name := PM.info_name server_process;
       PM.info_cmdline := PM.info_cmdline server_process |} in
  let w :=
    {| Monitor.host_history := all_queries_answer;
       Monitor.net := answering 200;
       Monitor.process_table := other_processes ++ [server_process; twin];
       Monitor.metrics := no_metrics;
       Monitor.now := "2024-01-01T00:00:05";
       Monitor.host_stats := all_queries_answer;
       Monitor.write := Monitor.Written;
       Monitor.screen := Ok tt;
       Monitor.sleep := Ok tt |} in
  exists stats : Stats,
    result_of (Monitor.collect_stats w (Monitor.init default_args) [])
      = Ok stats /\
    filter is_process_call
      (added [] (Monitor.collect_stats w (Monitor.init default_args) []))
      = [ProcessInfoCall 4242].
Proof.
  intros twin w. eexists. split.
  - vm_compute. reflexivity.
  - refine (proj1 (@only_first_match_is_inspected w
                     (Monitor.init default_args) [] _
                     server_process [twin] _ eq_refl)).
    vm_compute. reflexivity.
Defined.

(** X9.  A process that matched but is gone, or denies access, when
    [get_process_info] reads its metrics makes [get_process_info] return
    the empty dictionary, not raise: in the statistics [collect_stats]
    then returns the process block is empty, and the summary printed from
    them has no process section. *)
Theorem vanished_process_gives_empty_block
    (w : Monitor.World) (S : Monitor.t) (tr : list Event) (stats : Stats)
    (first : PM.Process) (others : list PM.Process) :
  result_of (Monitor.collect_stats w S tr) = Ok stats ->
  result_of (PM.find_processes (Monitor.process_table w)
               (Monitor.process_monitor S) []) = Ok (first :: others) ->
  Monitor.metrics w first = PM.MetricsGone \/
  Monitor.metrics w first = PM.MetricsDenied ->
  result_of (PM.get_process_info (Monitor.metrics w) first
               (Monitor.process_monitor S) []) = Ok None /\
  process stats = None /\
  existsb is_process_line (Monitor.format_stats stats) = false.
Proof.
  intros Hok Hfind Hgone. apply find_some in Hfind.
  destruct (collect_stats_ok_inv w S tr Hok) as [_ [_ [_ Hd]]].
  destruct Hd as [_ [Hp _]]. rewrite Hfind in Hp.
  assert (Hnone : reported (Monitor.metrics w) first = None).
  { unfold reported, PM.get_process_info. run.
    destruct Hgone as [-> | ->]; reflexivity. }
  rewrite get_process_info_eq, Hnone.
  split; [reflexivity |].
  rewrite Hnone in Hp. split; [exact Hp |].
  rewrite format_stats_process_lines, Hp. reflexivity.
Qed.

(** The server is in the table but exits before its metrics are read. *)
Lemma vanished_process_gives_empty_block_witness :
  let w :=
    {| Monitor.host_history := all_queries_answer;
       Monitor.net := answering 200;
       Monitor.process_table := other_processes ++ [server_process];
       Monitor.metrics := no_metrics;
       Monitor.now := "2024-01-01T00:00:05";
       Monitor.host_stats := all_queries_answer;
       Monitor.write := Monitor.Written;
       Monitor.screen := Ok tt;
       Monitor.sleep := Ok tt |} in
  exists stats : Stats,
    result_of (Monitor.collect_stats w (Monitor.init default_args) [])
      = Ok stats /\
    process stats = None.
Proof.
  intros w. eexists. split.
  - vm_compute. reflexivity.
  - refine (proj1 (proj2 (@vanished_process_gives_empty_block w
                            (Monitor.init default_args) [] _
                            server_process [] _ eq_refl
                            (or_introl eq_refl)))).
    vm_compute. reflexivity.
Defined.

(** ** Saving, printing and alerting *)





Lemma existsb_collecting w S (f : Event -> bool) :
  (forall r, f (HttpGet r) = false) ->
  (forall p, f (ProcessInfoCall p) = false) ->
  existsb f (collecting_events w S) = false.
Proof.
  intros Hg Hp. unfold collecting_events. simpl. rewrite Hg.
  destruct (first_match w S); simpl; [rewrite Hp |]; reflexivity.
Qed.

Lemma existsb_closing_log w S stats :
  screen_failure w S = None ->
  existsb (is_log ERROR NotResponding) (closing_events w S stats)
    = negb (app_is_alive (application stats)) /\
  existsb (is_log WARNING HighCpu) (closing_events w S stats)
    = Monitor.Qgtb (sys_cpu_percent (system stats)) 90 /\
  existsb (is_log WARNING HighMemory) (closing_events w S stats)
    = Monitor.Qgtb (sys_memory_percent (system stats)) 90.
Proof.
  intros Hp. unfold closing_events, save_events. rewrite Hp.
  destruct (Monitor.write w), (Monitor.quiet (Monitor.args S)),
    (Monitor.Qgtb (sys_cpu_percent (system stats)) 90),
    (Monitor.Qgtb (sys_memory_percent (system stats)) 90),
    (app_is_alive (application stats)),
    (no_failure (sleep_failure w S)); repeat split.
Qed.

(** X11.  In a round whose [collect_stats] returns and whose [print] does
    not raise, the three alerts are independent and follow the statistics
    of that round: "not responding" is logged exactly when the probe
    failed or was answered with a status other than 200, the CPU warning
    exactly when the CPU percentage read for the statistics is strictly
    above 90, the memory warning exactly when the memory percentage is. *)
Theorem alerts_follow_the_round
    (w : Monitor.World) (S : Monitor.t) (tr : list Event) (stats : Stats) :
  result_of (Monitor.collect_stats w S tr) = Ok stats ->
  Monitor.quiet (Monitor.args S) = true \/ Monitor.screen w = Ok tt ->
  let evs := added tr (Monitor.round w S tr) in
  existsb (is_log ERROR NotResponding) evs = negb (probe_alive w S) /\
  existsb (is_log WARNING HighCpu) evs = above_90 (stats_cpu w) /\
  existsb (is_log WARNING HighMemory) evs = above_90 (stats_memory w).
Proof.
  intros Hok Hscreen evs. unfold evs.
  apply screen_failure_none_iff in Hscreen.
  destruct (collect_stats_ok_inv w S tr Hok) as [_ [_ [Hr Hd]]].
  rewrite Hr, added_app.
  rewrite !existsb_app, !existsb_collecting by reflexivity. cbn [orb].
  destruct (existsb_closing_log w S stats Hscreen) as [H1 [H2 H3]].
  rewrite H1, H2, H3.
  destruct Hd as [_ [_ [Ha [Hc [Hm _]]]]].
  rewrite Ha, <- Hc, <- Hm. repeat split.
Qed.

(** A CPU reading of exactly 90 raises no warning, one of 90.5 does. *)
Lemma alerts_follow_the_round_witness :
  let host (cpu : Q) :=
    {| SM.cpu_percent := Ok cpu;
       SM.virtual_memory := SM.virtual_memory all_queries_answer;
       SM.disk_usage := SM.disk_usage all_queries_answer |} in
  let w (cpu : Q) :=
    {| Monitor.host_history := all_queries_answer;
       Monitor.net := refusing;
       Monitor.process_table := other_processes;
       Monitor.metrics := no_metrics;
       Monitor.now := "2024-01-01T00:00:05";
       Monitor.host_stats := host cpu;
       Monitor.write := Monitor.Written;
       Monitor.screen := Ok tt;
       Monitor.sleep := Ok tt |} in
  let evs (cpu : Q) :=
    added [] (Monitor.round (w cpu) (Monitor.init default_args) []) in
  existsb (is_log WARNING HighCpu) (evs 90%Q) = false /\
  existsb (is_log WARNING HighCpu) (evs (181 # 2)%Q) = true /\
  existsb (is_log ERROR NotResponding) (evs 90%Q) = true.
Proof.
  intros host w evs.
  refine (match @alerts_follow_the_round (w 90%Q)
                  (Monitor.init default_args) [] _ _ (or_intror eq_refl),
                @alerts_follow_the_round (w (181 # 2)%Q)
                  (Monitor.init default_args) [] _ _ (or_intror eq_refl)
          with
          | conj Hn (conj Hc _), conj _ (conj Hc' _) =>
              conj Hc (conj Hc' Hn)
          end); vm_compute; reflexivity.
Defined.

(** ** What the statistics hold *)

Lemma deque_append_last {A} (n : nat) (d : list A) (x dflt : A) :
  0 < n -> last (deque_append n d x) dflt = x.
Proof.
  intros Hn. unfold deque_append.
  destruct (Nat.ltb_spec n (List.length (d ++ [x]))) as [Hlt | Hge].
  - destruct d as [| a d']; [simpl in Hlt; lia |].
    simpl. apply last_last.
  - apply last_last.
Qed.

(** X12.  The statistics [collect_stats] returns carry two CPU readings
    taken by two separate psutil calls: [cpu_percent] is the one read while
    the dictionary is built, and the newest entry of [cpu_history] is the
    one [update_history] read at the start of the round.  The three
    histories and the recent errors in the statistics are those the
    monitor holds when [collect_stats] returns. *)
Theorem stats_carry_both_cpu_readings
    (w : Monitor.World) (S : Monitor.t) (tr : list Event) (stats : Stats)
    (c1 c2 : Q) :
  result_of (Monitor.collect_stats w S tr) = Ok stats ->
  SM.cpu_percent (Monitor.host_history w) = Ok c1 ->
  SM.cpu_percent (Monitor.host_stats w) = Ok c2 ->
  let S' := state_of (Monitor.collect_stats w S tr) in
  sys_cpu_percent (system stats) = c2 /\
  last (sys_cpu_history (system stats)) 0%Q = c1 /\
  sys_cpu_history (system stats) =
    SM.cpu_history (Monitor.system_monitor S') /\
  sys_memory_history (system stats) =
    SM.memory_history (Monitor.system_monitor S') /\
  sys_disk_history (system stats) =
    SM.disk_history (Monitor.system_monitor S') /\
  app_recent_errors (application stats) =
    AM.errors (Monitor.app_monitor S').
Proof.
  intros Hok H1 H2 S'. unfold S'.
  destruct (collect_stats_ok_inv w S tr Hok) as [_ [Hc [_ Hd]]].
  rewrite Hc. unfold state_of. simpl fst.
  destruct Hd as [_ [_ [_ [Hcpu [_ [Hch [Hmh [Hdh [Herr _]]]]]]]]].
  split.
  { unfold stats_cpu in Hcpu. rewrite H2 in Hcpu. congruence. }
  split; [| repeat split; assumption].
  rewrite Hch. simpl. rewrite <- sample_eq, sample_cpu.
  unfold cpu_sample. rewrite H1.
  apply deque_append_last. unfold SM.maxlen. lia.
Qed.

(** The CPU is at 12 % when the round starts and at 95 % when the
    statistics are built. *)
Lemma stats_carry_both_cpu_readings_witness :
  let busy :=
    {| SM.cpu_percent := Ok 95%Q;
       SM.virtual_memory := SM.virtual_memory all_queries_answer;
       SM.disk_usage := SM.disk_usage all_queries_answer |} in
  let w :=
    {| Monitor.host_history := all_queries_answer;
       Monitor.net := answering 200;
       Monitor.process_table := other_processes;
       Monitor.metrics := no_metrics;
       Monitor.now := "2024-01-01T00:00:05";
       Monitor.host_stats := busy;
       Monitor.write := Monitor.Written;
       Monitor.screen := Ok tt;
       Monitor.sleep := Ok tt |} in
  exists stats : Stats,
    result_of (Monitor.collect_stats w (Monitor.init default_args) []) =
      Ok stats /\
    sys_cpu_percent (system stats) = 95%Q /\
    last (sys_cpu_history (system stats)) 0%Q = 12%Q.
Proof.
  intros busy w. eexists. split.
  - vm_compute. reflexivity.
  - refine (match @stats_carry_both_cpu_readings w
                    (Monitor.init default_args) [] _ 12%Q 95%Q _
                    eq_refl eq_refl with
            | conj H2 (conj H3 _) => conj H2 H3
            end).
    vm_compute. reflexivity.
Defined.

(** ** The buffers stay within their capacity *)

Lemma partial_update_within (h : SM.Host) (s : SM.t) :
  List.length (SM.cpu_history s) <= SM.maxlen ->
  List.length (SM.memory_history s) <= SM.maxlen ->
  List.length (SM.disk_history s) <= SM.maxlen ->
  List.length (SM.cpu_history (partial_update h s)) <= SM.maxlen /\
  List.length (SM.memory_history (partial_update h s)) <= SM.maxlen /\
  List.length (SM.disk_history (partial_update h s)) <= SM.maxlen.
Proof.
  intros Hc Hm Hd. rewrite <- sample_eq.
  rewrite sample_cpu, sample_memory, sample_disk.
  destruct (cpu_sample h), (memory_sample h), (disk_sample h);
    repeat split; try assumption; apply deque_append_length; assumption.
Qed.

Lemma probe_within (s : AM.t) (n : AM.Net) :
  List.length (AM.response_times s) <= AM.response_maxlen ->
  List.length (AM.errors s) <= AM.errors_maxlen ->
  List.length (AM.response_times (probe s n)) <= AM.response_maxlen /\
  List.length (AM.errors (probe s n)) <= AM.errors_maxlen.
Proof.
  intros Hr He. rewrite probe_response_times, probe_errors.
  destruct (latency_of (AM.url s) n), (failure_of (AM.url s) n);
    split; try assumption; apply deque_append_length; assumption.
Qed.

Lemma round_within_capacity (w : Monitor.World) (S : Monitor.t) tr :
  within_capacity S -> within_capacity (state_of (Monitor.round w S tr)).
Proof.
  intros [Hc [Hm [Hd [Hr He]]]].
  destruct (partial_update_within (Monitor.host_history w) _ Hc Hm Hd)
    as [Hc' [Hm' Hd']].
  destruct (probe_within _ (Monitor.net w) Hr He) as [Hr' He'].
  destruct (round_state_eq w S tr) as [-> _].
  destruct (round_state_fields w S) as [_ [_ [_ [Hsys Happ]]]].
  unfold within_capacity. rewrite Hsys.
  destruct Happ as [-> | ->]; repeat split; assumption.
Qed.

Lemma rounds_invariant (P : Monitor.t -> Prop) :
  (forall w S tr, P S -> P (state_of (Monitor.round w S tr))) ->
  forall ws S tr, P S -> P (state_of (Monitor.rounds ws S tr)).
Proof.
  intros Hround ws. induction ws as [| w ws IH]; intros S tr HP.
  - exact HP.
  - simpl. unfold bind. specialize (Hround w S tr HP).
    unfold state_of in *.
    destruct (Monitor.round w S tr) as [[S1 tr1] [[] | e]]; simpl in *.
    + apply IH. exact Hround.
    + exact Hround.
Qed.

(** X13.  No call of the loop lets a buffer outgrow its capacity: on a
    monitor whose three host histories and latency history hold at most 60
    values and whose error FIFO holds at most 100 records, the same is true
    after [monitor] has run any rounds, whether they completed or raised. *)
Theorem monitor_keeps_buffers_within_capacity
    (ws : list Monitor.World) (S : Monitor.t) (tr : list Event) :
  within_capacity S ->
  within_capacity (state_of (Monitor.monitor ws S tr)).
Proof.
  intros HS.
  assert (H : within_capacity
                (state_of (Monitor.rounds ws
                             (Monitor.set_is_running true S) tr))).
  { apply rounds_invariant; [exact round_within_capacity | exact HS]. }
  unfold Monitor.monitor, state_of in *.
  destruct (Monitor.rounds ws (Monitor.set_is_running true S) tr)
    as [[S1 tr1] [[] | []]]; exact H.
Qed.

(** A new monitor, run for two rounds of which the second fails. *)
Lemma monitor_keeps_buffers_within_capacity_witness :
  within_capacity
    (state_of (Monitor.monitor [quiet_round; stats_query_fails]
                 (Monitor.init default_args) [])).
Proof.
  apply monitor_keeps_buffers_within_capacity.
  unfold within_capacity. simpl. lia.
Defined.

(** ** The loop and [main] *)

Lemma round_failure_ext (w : Monitor.World) (S S' : Monitor.t) :
  Monitor.args S' = Monitor.args S ->
  PM.process_name (Monitor.process_monitor S') =
    PM.process_name (Monitor.process_monitor S) ->
  round_failure w S' = round_failure w S.
Proof.
  intros Ha Hn.
  unfold round_failure, collect_failure, lookup_failure, closing_failure,
    screen_failure, sleep_failure.
  rewrite Ha, Hn. reflexivity.
Qed.

(** A round in which nothing raises: one GET, one sleep. *)
Lemma round_completes (w : Monitor.World) (S : Monitor.t) tr :
  round_failure w S = None ->
  exists evs : list Event,
    Monitor.round w S tr = (round_state w S, tr ++ evs, Ok tt) /\
    List.length (filter is_sleep evs) = 1 /\
    List.length (filter is_get evs) = 1 /\
    filter (is_log INFO Stopped) evs = [].
Proof.
  unfold round_failure. intros H.
  destruct (collect_failure w S) as [e |] eqn:Hc; [discriminate H |].
  destruct (round_returns w S tr Hc) as [stats [_ [Hr _]]].
  exists (collecting_events w S ++ closing_events w S stats).
  rewrite Hr, (round_state_returns _ _ Hc).
  unfold closing_result. rewrite H. split; [reflexivity |].
  unfold closing_failure in H.
  destruct (screen_failure w S) as [e |] eqn:Hp; [discriminate H |].
  unfold collecting_events, closing_events, save_events. rewrite Hp, H.
  simpl.
  destruct (first_match w S), (Monitor.write w),
    (Monitor.quiet (Monitor.args S)),
    (Monitor.Qgtb (sys_cpu_percent (system stats)) 90),
    (Monitor.Qgtb (sys_memory_percent (system stats)) 90),
    (app_is_alive (application stats)); repeat split.
Qed.

(** A round in which something raises: no sleep. *)
Lemma round_fails (w : Monitor.World) (S : Monitor.t) tr e :
  round_failure w S = Some e ->
  exists evs : list Event,
    Monitor.round w S tr = (round_state w S, tr ++ evs, Raise e) /\
    filter is_sleep evs = [] /\
    filter (is_log INFO Stopped) evs = [].
Proof.
  unfold round_failure. intros H.
  destruct (collect_failure w S) as [e' |] eqn:Hc.
  - injection H as ->. destruct (round_raises w S tr Hc) as [_ Hr].
    exists (aborted_events w S). split; [exact Hr |].
    unfold aborted_events, collecting_events.
    destruct (first_failure (Monitor.host_history w)), (first_match w S);
      split; reflexivity.
  - destruct (round_returns w S tr Hc) as [stats [_ [Hr _]]].
    exists (collecting_events w S ++ closing_events w S stats).
    rewrite Hr, (round_state_returns _ _ Hc).
    unfold closing_result. rewrite H. split; [reflexivity |].
    unfold closing_failure in H.
    unfold collecting_events, closing_events, save_events.
    destruct (screen_failure w S) as [e' |] eqn:Hp.
    + destruct (first_match w S), (Monitor.write w),
        (Monitor.quiet (Monitor.args S)); split; reflexivity.
    + rewrite H. simpl.
      destruct (first_match w S), (Monitor.write w),
        (Monitor.quiet (Monitor.args S)),
        (Monitor.Qgtb (sys_cpu_percent (system stats)) 90),
        (Monitor.Qgtb (sys_memory_percent (system stats)) 90),
        (app_is_alive (application stats)); split; reflexivity.
Qed.

(** Whether a round raises depends on the monitor through its arguments
    and its process filter only, and no round changes them. *)
Lemma round_failure_next (w : Monitor.World) (S0 S : Monitor.t) :
  Monitor.args S = Monitor.args S0 ->
  PM.process_name (Monitor.process_monitor S) =
    PM.process_name (Monitor.process_monitor S0) ->
  Monitor.args (round_state w S) = Monitor.args S0 /\
  PM.process_name (Monitor.process_monitor (round_state w S)) =
    PM.process_name (Monitor.process_monitor S0).
Proof.
  intros Ha Hn. destruct (round_state_fields w S) as [H1 [_ [H2 _]]].
  rewrite H1, H2. split; assumption.
Qed.

(** The rounds of [ws], in none of which anything raises, run one after
    the other until the interrupt. *)
Lemma rounds_all_complete (S0 : Monitor.t) ws : forall (S : Monitor.t) tr,
  Monitor.args S = Monitor.args S0 ->
  PM.process_name (Monitor.process_monitor S) =
    PM.process_name (Monitor.process_monitor S0) ->
  forallb (fun w => no_failure (round_failure w S0)) ws = true ->
  exists (S' : Monitor.t) (evs : list Event),
    Monitor.rounds ws S tr = (S', tr ++ evs, Raise KeyboardInterrupt) /\
    List.length (filter is_sleep evs) = List.length ws /\
    List.length (filter is_get evs) = List.length ws /\
    filter (is_log INFO Stopped) evs = [].
Proof.
  induction ws as [| w ws IH]; intros S tr Ha Hn Hall.
  - exists S, []. rewrite app_nil_r. repeat split.
  - simpl in Hall. apply andb_true_iff in Hall. destruct Hall as [Hw Hall].
    rewrite <- (@round_failure_ext w _ _ Ha Hn) in Hw.
    destruct (round_failure w S) as [e |] eqn:Hf; [discriminate Hw |].
    destruct (round_completes w S tr Hf) as [ev1 [Hr [Cs [Cg Cl]]]].
    destruct (@round_failure_next w S0 S Ha Hn) as [Ha' Hn'].
    destruct (IH (round_state w S) (tr ++ ev1) Ha' Hn' Hall)
      as [S' [evs [Hrs [Hs [Hg Hl]]]]].
    exists S', (ev1 ++ evs).
    split.
    { simpl. erewrite bind_ok by exact Hr. rewrite Hrs.
      rewrite <- !app_assoc. reflexivity. }
    rewrite !filter_app, !length_app, Cs, Cg, Cl, Hs, Hg, Hl.
    repeat split.
Qed.

(** X14.  A run in none of whose rounds anything raises ends on the
    operator's interrupt: [monitor] then returns without an exception,
    with [is_running] cleared, after one GET and one sleep per round and a
    single "stopped" log entry. *)
Theorem monitor_runs_until_interrupted
    (ws : list Monitor.World) (S : Monitor.t) (tr : list Event) :
  forallb (fun w => no_failure (round_failure w S)) ws = true ->
  let out := Monitor.monitor ws S tr in
  result_of out = Ok tt /\
  Monitor.is_running (state_of out) = false /\
  List.length (filter is_get (added tr out)) = List.length ws /\
  List.length (filter is_sleep (added tr out)) = List.length ws /\
  filter (is_log INFO Stopped) (added tr out) = [Log INFO Stopped].
Proof.
  intros Hall out. unfold out, Monitor.monitor.
  destruct (@rounds_all_complete S ws (Monitor.set_is_running true S) tr
              eq_refl eq_refl Hall)
    as [S' [evs [Hrs [Hs [Hg Hl]]]]].
  rewrite Hrs. rewrite <- app_assoc, added_app.
  rewrite !filter_app, !length_app, Hs, Hg, Hl. simpl.
  repeat split; lia.
Qed.

Lemma monitor_runs_until_interrupted_witness :
  let out :=
    Monitor.monitor [quiet_round; quiet_round; quiet_round]
      (Monitor.init default_args) [] in
  result_of out = Ok tt /\
  List.length (filter is_sleep (added [] out)) = 3.
Proof.
  intros out.
  destruct (@monitor_runs_until_interrupted
              [quiet_round; quiet_round; quiet_round]
              (Monitor.init default_args) [] eq_refl)
    as [H1 [_ [_ [H2 _]]]].
  split; [exact H1 | exact H2].
Defined.

(** The rounds up to the first one in which something raises. *)
Lemma rounds_stop_at_failure (S0 : Monitor.t) good :
  forall (bad : Monitor.World) rest (S : Monitor.t) tr e,
  Monitor.args S = Monitor.args S0 ->
  PM.process_name (Monitor.process_monitor S) =
    PM.process_name (Monitor.process_monitor S0) ->
  forallb (fun w => no_failure (round_failure w S0)) good = true ->
  round_failure bad S0 = Some e ->
  exists (S' : Monitor.t) (evs : list Event),
    Monitor.rounds (good ++ bad :: rest) S tr = (S', tr ++ evs, Raise e) /\
    Monitor.rounds (good ++ [bad]) S tr = (S', tr ++ evs, Raise e) /\
    List.length (filter is_sleep evs) = List.length good /\
    filter (is_log INFO Stopped) evs = [].
Proof.
  induction good as [| w good IH]; intros bad rest S tr e Ha Hn Hall Hbad.
  - rewrite <- (@round_failure_ext bad _ _ Ha Hn) in Hbad.
    destruct (round_fails bad S tr Hbad) as [evs [Hr [Hs Hl]]].
    exists (round_state bad S), evs.
    split; [simpl; erewrite bind_raise by exact Hr; reflexivity |].
    split; [simpl; erewrite bind_raise by exact Hr; reflexivity |].
    rewrite Hs, Hl. split; reflexivity.
  - simpl in Hall. apply andb_true_iff in Hall. destruct Hall as [Hw Hall].
    rewrite <- (@round_failure_ext w _ _ Ha Hn) in Hw.
    destruct (round_failure w S) as [e' |] eqn:Hf; [discriminate Hw |].
    destruct (round_completes w S tr Hf) as [ev1 [Hr [Cs [_ Cl]]]].
    destruct (@round_failure_next w S0 S Ha Hn) as [Ha' Hn'].
    destruct (IH bad rest (round_state w S) (tr ++ ev1) e Ha' Hn' Hall Hbad)
      as [S' [evs [Hrs [Hrs' [Hs Hl]]]]].
    exists S', (ev1 ++ evs).
    split.
    { simpl. erewrite bind_ok by exact Hr. rewrite Hrs.
      rewrite <- !app_assoc. reflexivity. }
    split.
    { simpl. erewrite bind_ok by exact Hr. rewrite Hrs'.
      rewrite <- !app_assoc. reflexivity. }
    rewrite !filter_app, !length_app, Cs, Cl, Hs, Hl. split; reflexivity.
Qed.

(** X15.  The loop has no recovery of its own: when a call raises an
    [Exception] in some round, [monitor] raises it to its caller with
    [is_running] cleared by [finally], the rounds before it having each run
    to their sleep, and no later round is started, whatever it would have
    found. *)
Theorem monitor_stops_at_first_failure
    (good : list Monitor.World) (bad : Monitor.World)
    (rest : list Monitor.World) (S : Monitor.t) (tr : list Event)
    (e : exn) :
  forallb (fun w => no_failure (round_failure w S)) good = true ->
  round_failure bad S = Some e ->
  is_Exception e = true ->
  let out := Monitor.monitor (good ++ bad :: rest) S tr in
  result_of out = Raise e /\
  Monitor.is_running (state_of out) = false /\
  List.length (filter is_sleep (added tr out)) = List.length good /\
  out = Monitor.monitor (good ++ [bad]) S tr.
Proof.
  intros Hall Hbad Hexc out. unfold out, Monitor.monitor.
  destruct (@rounds_stop_at_failure S good bad rest
              (Monitor.set_is_running true S) tr e eq_refl eq_refl
              Hall Hbad)
    as [S' [evs [Hrs [Hrs' [Hs _]]]]].
  rewrite Hrs, Hrs'.
  destruct e; try discriminate Hexc;
    rewrite added_app; repeat split; exact Hs.
Qed.

(** Two good rounds, then the disk query fails; a fourth round is never
    reached. *)
Lemma monitor_stops_at_first_failure_witness :
  let out :=
    Monitor.monitor ([quiet_round; quiet_round] ++
                     stats_query_fails :: [quiet_round])
      (Monitor.init default_args) [] in
  Monitor.is_running (state_of out) = false /\
  List.length (filter is_sleep (added [] out)) = 2.
Proof.
  intros out.
  destruct (@monitor_stops_at_first_failure
              [quiet_round; quiet_round] stats_query_fails [quiet_round]
              (Monitor.init default_args) []
              (OSError "No such file or directory")
              eq_refl eq_refl eq_refl)
    as [_ [H1 [H2 _]]].
  split; [exact H1 | exact H2].
Defined.

(** X16.  The exit status of the program tells the two ends apart: after
    an operator's interrupt [main] returns normally and logs no critical
    error, while an [Exception] raised in some round makes [main] log that
    exception and leave through [sys.exit(1)]. *)
Theorem main_exit_status
    (a : Monitor.Args) (good : list Monitor.World) (bad : Monitor.World)
    (rest : list Monitor.World) (e : exn) :
  forallb (fun w => no_failure (round_failure w (Monitor.init a))) good
    = true ->
  (run_exit (main a good) = Returns /\ run_critical (main a good) = None) /\
  (round_failure bad (Monitor.init a) = Some e ->
   is_Exception e = true ->
   run_exit (main a (good ++ bad :: rest)) = SysExit 1 /\
   run_critical (main a (good ++ bad :: rest)) = Some e).
Proof.
  intros Hall. split.
  - unfold main, Monitor.monitor.
    destruct (@rounds_all_complete (Monitor.init a) good
                (Monitor.set_is_running true (Monitor.init a)) []
                eq_refl eq_refl Hall)
      as [S' [evs [Hrs _]]].
    rewrite Hrs. split; reflexivity.
  - intros Hbad Hexc. unfold main, Monitor.monitor.
    destruct (@rounds_stop_at_failure (Monitor.init a) good bad rest
                (Monitor.set_is_running true (Monitor.init a)) [] e
                eq_refl eq_refl Hall Hbad)
      as [S' [evs [Hrs _]]].
    rewrite Hrs.
    destruct e; try discriminate Hexc; simpl; split; reflexivity.
Qed.

Lemma main_exit_status_witness :
  run_exit (main default_args [quiet_round; quiet_round]) = Returns /\
  run_exit (main default_args
              ([quiet_round; quiet_round] ++ stats_query_fails :: []))
    = SysExit 1.
Proof.
  destruct (@main_exit_status default_args [quiet_round; quiet_round]
              stats_query_fails []
              (OSError "No such file or directory") eq_refl)
    as [[H1 _] H2].
  split; [exact H1 |].
  apply H2; reflexivity.
Defined.
(** ** Host histories in step *)

Lemma pick_all_healthy (hs : list SM.Host) :
  forallb healthy hs = true ->
  List.length (pick cpu_sample hs) = List.length hs /\
  List.length (pick memory_sample hs) = List.length hs /\
  List.length (pick disk_sample hs) = List.length hs.
Proof.
  induction hs as [| h hs IH]; intros Hall; [repeat split |].
  simpl in Hall. apply andb_true_iff in Hall. destruct Hall as [Hh Hall].
  destruct (IH Hall) as [Hc [Hm Hd]].
  destruct (healthy_answers _ Hh) as [c [m [d [Ec [Em Ed]]]]].
  unfold cpu_sample, memory_sample, disk_sample. simpl.
  rewrite Ec, Em, Ed. simpl.
  unfold cpu_sample, memory_sample, disk_sample in Hc, Hm, Hd.
  rewrite Hc, Hm, Hd. repeat split.
Qed.

(** X17.  As long as no psutil query raises, the three host histories
    stay in step: after [k] calls of [update_history] on a new
    [SystemMonitor] each of them holds [min k 60] values. *)
Theorem host_histories_stay_in_step (hs : list SM.Host) :
  forallb healthy hs = true ->
  let s := samples hs SM.init in
  let k := List.length hs in
  List.length (SM.cpu_history s) = Nat.min k 60 /\
  List.length (SM.memory_history s) = Nat.min k 60 /\
  List.length (SM.disk_history s) = Nat.min k 60.
Proof.
  intros Hall s k.
  destruct (samples_histories hs SM.init) as [Hc [Hm Hd]].
  destruct (pick_all_healthy hs Hall) as [Lc [Lm Ld]].
  unfold s. rewrite Hc, Hm, Hd. simpl.
  rewrite !deque_extend_skipn by (simpl; lia).
  rewrite !length_skipn. simpl. rewrite Lc, Lm, Ld.
  unfold SM.maxlen. fold k. repeat split; lia.
Qed.

Lemma host_histories_stay_in_step_witness :
  let s := samples (repeat all_queries_answer 61) SM.init in
  List.length (SM.cpu_history s) = 60 /\
  List.length (SM.memory_history s) = 60 /\
  List.length (SM.disk_history s) = 60.
Proof.
  apply (@host_histories_stay_in_step (repeat all_queries_answer 61)).
  vm_compute. reflexivity.
Defined.
